(** * restposten-mongodb: the thin MongoDB layer, embedded and verified

    The module under study wraps the node-mongodb-native driver.  Every
    operation normalises its arguments (argument-count sniffing, the forced
    [safe] flag, the [_id] coercion of [fixID]) and then hands them to the
    driver.  The embedding keeps what the JavaScript has:

    - JavaScript values, with objects living in a heap of mutable property
      maps, so that two arguments may be the same object;
    - a small state-and-exception monad: a call may mutate the heap, may
      append to the trace of driver requests and callback invocations, and
      may throw a [TypeError];
    - the driver as the environment: each request is recorded together with
      the heap it can see, and the functions that the wrapper hands to the
      driver are values that can be called later with the driver's answer.

    The repository also holds an older copy of the module, without [fixID]
    and without [update], [delete] and [count]; the embedding is of the
    complete module. *)

From stdpp Require Import base gmap strings list fin_maps.
From Stdlib Require Import ZArith String Ascii Lia.

Local Open Scope string_scope.

(** ** Values *)

Definition loc := nat.

(** JavaScript values.  [VObjectID hex] is the driver's native identifier
    [mongo.ObjectID.createFromHexString(hex)].  [VNative h] is an object
    owned by the driver (server, connector, connection, collection, cursor).
    [VFun f] is a function of the caller.  The last three constructors are
    the three function expressions of the module: the callback given to
    [dbConnector.open] (closing over [callback]), the callback given to
    [this._db.collection] (closing over [name], [indexes], [callback]) and
    the empty function given to [coll.ensureIndex]. *)
Inductive value : Type :=
| VUndefined
| VNull
| VBool (b : bool)
| VNum (n : Z)
| VStr (s : string)
| VObjectID (hex : string)
| VNative (h : nat)
| VRef (l : loc)
| VFun (f : nat)
| VOpenCb (callback : value)
| VCollectionCb (name indexes callback : value)
| VNoop.

Global Instance value_eq_dec : EqDecision value.
Proof. solve_decision. Defined.

(** Heap objects: a property map, plus the elements when the object is an
    array, plus the constructor that made it. *)
Inductive kind : Type :=
| KPlain
| KArray (elems : list value)
| KDB
| KCollection.

Record object : Type := Object { okind : kind; oprops : gmap string value }.

Global Instance kind_eq_dec : EqDecision kind.
Proof. solve_decision. Defined.

Global Instance object_eq_dec : EqDecision object.
Proof. solve_decision. Defined.

(** What the wrapper does to its environment, in order.  A driver request
    carries the heap as it is when the request is made: that is the content
    of the objects the driver receives. *)
Inductive event : Type :=
| EvNew (ctor : string) (args : list value) (ret : value)
        (h : gmap loc object)
| EvCall (recv : value) (meth : string) (args : list value) (ret : value)
         (h : gmap loc object)
| EvInvoke (f : nat) (args : list value).

Record state : Type := State {
  heap : gmap loc object;
  natives : nat;
  trace : list event
}.

(** ** The monad *)

Inductive outcome (A : Type) : Type :=
| Ret (a : A)
| Throw (msg : string)
| Stuck.

Arguments Ret {A} a.
Arguments Throw {A} msg.
Arguments Stuck {A}.

Definition M (A : Type) : Type := state -> outcome A * state.

Definition ret {A} (a : A) : M A := fun s => (Ret a, s).

Definition bind {A B} (m : M A) (k : A -> M B) : M B :=
  fun s =>
    match m s with
    | (Ret a, s') => k a s'
    | (Throw msg, s') => (Throw msg, s')
    | (Stuck, s') => (Stuck, s')
    end.

Notation "x <- m ;; k" := (bind m (fun x => k))
  (at level 100, m at next level, right associativity).
Notation "m ;;; k" := (bind m (fun _ => k))
  (at level 100, right associativity).

Definition type_error {A} (msg : string) : M A := fun s => (Throw msg, s).
Definition stuck {A} : M A := fun s => (Stuck, s).

Definition emit (e : event) : M unit :=
  fun s => (Ret tt, State (heap s) (natives s) (trace s ++ [e])).

(** ** Primitive operations of the language *)

(** [arguments[i]], [undefined] when the caller passed fewer arguments. *)
Definition arg (i : nat) (args : list value) : value :=
  nth i args VUndefined.

(** ToBoolean.  Numbers are integers here, so there is no [NaN]. *)
Definition truthy (v : value) : bool :=
  match v with
  | VUndefined | VNull => false
  | VBool b => b
  | VNum n => negb (n =? 0)%Z
  | VStr s => negb (String.eqb s EmptyString)
  | _ => true
  end.

(** [a || b] *)
Definition js_or (a b : value) : value := if truthy a then a else b.

Definition obj_get (o : object) (k : string) : value :=
  match okind o, String.eqb k "length" with
  | KArray es, true => VNum (Z.of_nat (List.length es))
  | _, _ => default VUndefined (oprops o !! k)
  end.

Definition obj_set (o : object) (k : string) (v : value) : object :=
  Object (okind o) (<[k := v]> (oprops o)).

(** [v.k].  Reading a property of [undefined] or [null] throws; a primitive
    has none of the properties the module reads, except the length of a
    string; the properties of functions and of the driver's objects are
    outside the model, except that they carry no [_id]. *)
Definition get_prop (v : value) (k : string) : M value :=
  match v with
  | VUndefined | VNull =>
      type_error ("Cannot read property " ++ k)%string
  | VBool _ | VNum _ => ret VUndefined
  | VStr s =>
      if String.eqb k "length" then ret (VNum (Z.of_nat (String.length s)))
      else ret VUndefined
  | VRef l =>
      fun s => match heap s !! l with
               | Some o => (Ret (obj_get o k), s)
               | None => (Stuck, s)
               end
  | _ => if String.eqb k "_id" then ret VUndefined else stuck
  end.

Definition is_array (o : object) : bool :=
  match okind o with KArray _ => true | _ => false end.

(** [v.k = x] in strict mode: assigning to a property of a primitive
    throws.  Resizing an array through its [length] is outside the model. *)
Definition set_prop (v : value) (k : string) (x : value) : M unit :=
  match v with
  | VUndefined | VNull | VBool _ | VNum _ | VStr _ =>
      type_error ("Cannot set property " ++ k)%string
  | VRef l =>
      fun s => match heap s !! l with
               | Some o =>
                   if String.eqb k "length" && is_array o then (Stuck, s)
                   else (Ret tt, State (<[l := obj_set o k x]> (heap s))
                                       (natives s) (trace s))
               | None => (Stuck, s)
               end
  | _ => stuck
  end.

(** Allocation of a new object, at a location the heap does not use. *)
Definition alloc (o : object) : M value :=
  fun s =>
    let l := fresh (dom (heap s)) in
    (Ret (VRef l), State (<[l := o]> (heap s)) (natives s) (trace s)).

(** [{}] *)
Definition new_object : M value := alloc (Object KPlain ∅).

(** [new mongo.C(args)]: the driver builds an object of its own. *)
Definition new_native (ctor : string) (args : list value) : M value :=
  fun s =>
    let r := VNative (natives s) in
    (Ret r, State (heap s) (S (natives s))
                  (trace s ++ [EvNew ctor args r (heap s)])).

(** [recv.meth(args)] where [recv] is an object of the driver.  The request
    is recorded; what the driver returns is an object of its own (a cursor,
    for [find]). *)
Definition call_native (recv : value) (meth : string) (args : list value)
  : M value :=
  match recv with
  | VUndefined | VNull =>
      type_error ("Cannot call method " ++ meth)%string
  | VNative _ =>
      fun s =>
        let r := VNative (natives s) in
        (Ret r, State (heap s) (S (natives s))
                      (trace s ++ [EvCall recv meth args r (heap s)]))
  | _ => stuck
  end.

(** ** The regular expression of [fixID]: [/^[0-9A-F]{24}$/i] *)

(** The class [[0-9A-F]] under the [i] flag: a character matches when its
    upper-case form is in the class.  Only the letters a to z have an
    upper-case form in ASCII; the canonicalisation of the [i] flag never
    maps a character outside ASCII into ASCII. *)
Definition upcase (c : ascii) : ascii :=
  let n := nat_of_ascii c in
  if ((97 <=? n) && (n <=? 122))%nat then ascii_of_nat (n - 32) else c.

Definition in_range (lo hi c : ascii) : bool :=
  ((nat_of_ascii lo <=? nat_of_ascii c)
   && (nat_of_ascii c <=? nat_of_ascii hi))%nat.

Definition hex_class_i (c : ascii) : bool :=
  in_range "0" "9" (upcase c) || in_range "A" "F" (upcase c).

(** [[0-9A-F]{n}] at the head of [s]: the rest of the input on success. *)
Fixpoint match_hex_n (n : nat) (s : string) : option string :=
  match n with
  | O => Some s
  | S n' =>
      match s with
      | String c s' => if hex_class_i c then match_hex_n n' s' else None
      | EmptyString => None
      end
  end.

(** [/^[0-9A-F]{24}$/i.test(s)]: anchored at both ends. *)
Definition test_hex24 (s : string) : bool :=
  match match_hex_n 24 s with
  | Some EmptyString => true
  | _ => false
  end.

(** ** The module *)

(** [function fixID(query)] *)
Definition fixID (query : value) : M unit :=
  id <- get_prop query "_id" ;;
  match id with
  | VStr s =>
      if test_hex24 s then set_prop query "_id" (VObjectID s) else ret tt
  | _ => ret tt
  end.

(** [v == 0].  Comparing a string or an object with a number goes through
    ToNumber and ToPrimitive, which are outside the model. *)
Definition loose_eq_zero (v : value) : M bool :=
  match v with
  | VNum n => ret (n =? 0)%Z
  | VBool b => ret (negb b)
  | VUndefined | VNull => ret false
  | _ => stuck
  end.

Fixpoint for_each_list (f : value -> M value) (es : list value) : M unit :=
  match es with
  | [] => ret tt
  | e :: es' => f e ;;; for_each_list f es'
  end.

(** [a.forEach(f)]: defined on arrays; on anything else that has no
    [forEach] property the call throws. *)
Definition for_each (a : value) (f : value -> M value) : M unit :=
  match a with
  | VUndefined | VNull => type_error "Cannot read property forEach"
  | VBool _ | VNum _ | VStr _ => type_error "forEach is not a function"
  | VRef l =>
      fun s => match heap s !! l with
               | Some (Object (KArray es) _) => for_each_list f es s
               | Some (Object _ ps) =>
                   match ps !! "forEach" with
                   | None => (Throw "forEach is not a function", s)
                   | Some _ => (Stuck, s)
                   end
               | None => (Stuck, s)
               end
  | _ => stuck
  end.

(** [function DB(dbConnection) { this._db = dbConnection; }] *)
Definition new_DB (dbConnection : value) : M value :=
  this <- alloc (Object KDB ∅) ;;
  set_prop this "_db" dbConnection ;;;
  ret this.

(** [function Collection(name, coll)]: [_coll] is stored, [name] is
    answered by a getter that returns the constructor's argument. *)
Definition new_Collection (name coll : value) : M value :=
  this <- alloc (Object KCollection ∅) ;;
  set_prop this "_coll" coll ;;;
  set_prop this "name" name ;;;
  ret this.

(** The body of [function(err, conn) { ... }] in [connect]; [invoke] calls
    the captured [callback]. *)
Definition open_body (invoke : list value -> M value) (args : list value)
  : M value :=
  let err := arg 0 args in
  let conn := arg 1 args in
  if truthy err then invoke [err]
  else
    db <- new_DB conn ;;
    invoke [VNull; db] ;;;
    ret VUndefined.

(** The body of [function(err, coll) { ... }] in [getCollection]. *)
Definition collection_body (name indexes : value)
    (invoke : list value -> M value) (args : list value) : M value :=
  let err := arg 0 args in
  let coll := arg 1 args in
  if truthy err then invoke [err]
  else
    none <- match indexes with
            | VNull => ret true
            | _ => len <- get_prop indexes "length" ;; loose_eq_zero len
            end ;;
    if (none : bool) then
      c <- new_Collection name coll ;;
      invoke [VNull; c]
    else
      for_each indexes
        (fun index => call_native coll "ensureIndex" [index; VNoop]) ;;;
      c <- new_Collection name coll ;;
      invoke [VNull; c] ;;;
      ret VUndefined.

(** [f(args)].  A function of the caller is opaque: its invocation is
    recorded.  The module's own function expressions run their bodies.
    Calling anything else throws. *)
Fixpoint call (f : value) : list value -> M value :=
  match f with
  | VFun n => fun args => emit (EvInvoke n args) ;;; ret VUndefined
  | VNoop => fun _ => ret VUndefined
  | VOpenCb callback => open_body (call callback)
  | VCollectionCb name indexes callback =>
      collection_body name indexes (call callback)
  | _ => fun _ => type_error "callback is not a function"
  end.

(** [exports.connect = function(options, callback)].  With one argument the
    source evaluates the comparison [callback == options] and drops its
    result, so [callback] keeps the value of the missing second argument. *)
Definition connect (args : list value) : M value :=
  let options := arg 0 args in
  let callback := arg 1 args in
  options <- (if (List.length args =? 1)%nat then new_object
              else ret options) ;;
  h <- get_prop options "host" ;;
  let host := js_or h (VStr "localhost") in
  p <- get_prop options "port" ;;
  let port := js_or p (VNum 27017%Z) in
  set_prop options "strict" (VBool false) ;;;
  set_prop options "safe" (VBool true) ;;;
  mongoServer <- new_native "Server" [host; port; options] ;;
  name <- get_prop options "name" ;;
  dbConnector <- new_native "Db" [name; mongoServer; options] ;;
  call_native dbConnector "open" [VOpenCb callback] ;;;
  ret VUndefined.

(** [DB.prototype.getCollection = function(name, indexes, callback)] *)
Definition DB_getCollection (this : value) (args : list value) : M value :=
  let name := arg 0 args in
  let indexes := arg 1 args in
  let callback := arg 2 args in
  let '(indexes, callback) :=
    if (List.length args =? 2)%nat then (VNull, indexes)
    else (indexes, callback) in
  db <- get_prop this "_db" ;;
  call_native db "collection" [name; VCollectionCb name indexes callback] ;;;
  ret VUndefined.

(** [DB.prototype.close = function(force, callback)] *)
Definition DB_close (this : value) (args : list value) : M value :=
  let force := arg 0 args in
  let callback := arg 1 args in
  db <- get_prop this "_db" ;;
  (if (List.length args =? 1)%nat then call_native db "close" [arg 0 args]
   else call_native db "close" [force; callback]) ;;;
  ret VUndefined.

(** [Collection.prototype.find = function(query, fields, options, callback)] *)
Definition Collection_find (this : value) (args : list value) : M value :=
  let query := arg 0 args in
  let fields := arg 1 args in
  let options := arg 2 args in
  let callback := arg 3 args in
  r <-
    (if (List.length args =? 2)%nat then
       o <- new_object ;; ret (VNull, o, fields)
     else if (List.length args =? 3)%nat then
       ret (VNull, fields, options)
     else ret (fields, options, callback)) ;;
  let '(fields, options, callback) := r in
  fixID query ;;;
  coll <- get_prop this "_coll" ;;
  cursor <- match fields with
            | VNull => call_native coll "find" [query; options]
            | _ => call_native coll "find" [query; fields; options]
            end ;;
  call_native cursor "toArray" [callback] ;;;
  ret VUndefined.

(** [Collection.prototype.findOne] *)
Definition Collection_findOne (this : value) (args : list value) : M value :=
  let query := arg 0 args in
  let fields := arg 1 args in
  let options := arg 2 args in
  let callback := arg 3 args in
  r <-
    (if (List.length args =? 2)%nat then
       o <- new_object ;; ret (VNull, o, fields)
     else if (List.length args =? 3)%nat then
       ret (VNull, fields, options)
     else ret (fields, options, callback)) ;;
  let '(fields, options, callback) := r in
  fixID query ;;;
  coll <- get_prop this "_coll" ;;
  match fields with
  | VNull => call_native coll "findOne" [query; options; callback]
  | _ => call_native coll "findOne" [query; fields; options; callback]
  end ;;;
  ret VUndefined.

(** [Collection.prototype.save = function(record, options, callback)] *)
Definition Collection_save (this : value) (args : list value) : M value :=
  let record := arg 0 args in
  let options := arg 1 args in
  let callback := arg 2 args in
  r <-
    (if (List.length args =? 2)%nat then
       o <- new_object ;; ret (o, options)
     else ret (options, callback)) ;;
  let '(options, callback) := r in
  set_prop options "safe" (VBool true) ;;;
  fixID record ;;;
  coll <- get_prop this "_coll" ;;
  call_native coll "save" [record; options; callback] ;;;
  ret VUndefined.

(** [Collection.prototype.update = function(criteria, record, options,
    callback)] *)
Definition Collection_update (this : value) (args : list value) : M value :=
  let criteria := arg 0 args in
  let record := arg 1 args in
  let options := arg 2 args in
  let callback := arg 3 args in
  r <-
    (if (List.length args =? 3)%nat then
       o <- new_object ;; ret (o, options)
     else ret (options, callback)) ;;
  let '(options, callback) := r in
  set_prop options "safe" (VBool true) ;;;
  fixID record ;;;
  coll <- get_prop this "_coll" ;;
  call_native coll "update" [criteria; record; options; callback] ;;;
  ret VUndefined.

(** [Collection.prototype.delete = function(query, options, callback)] *)
Definition Collection_delete (this : value) (args : list value) : M value :=
  let query := arg 0 args in
  let options := arg 1 args in
  let callback := arg 2 args in
  r <-
    (if (List.length args =? 2)%nat then
       o <- new_object ;; ret (o, options)
     else ret (options, callback)) ;;
  let '(options, callback) := r in
  set_prop options "safe" (VBool true) ;;;
  fixID query ;;;
  coll <- get_prop this "_coll" ;;
  call_native coll "remove" [query; options; callback] ;;;
  ret VUndefined.

(** [Collection.prototype.count = function(query, options, callback)]: the
    two branches of the argument-count test have the same body. *)
Definition Collection_count (this : value) (args : list value) : M value :=
  let query := arg 0 args in
  let options := arg 1 args in
  let callback := arg 2 args in
  r <-
    (if (List.length args =? 2)%nat then
       o <- new_object ;; ret (o, options)
     else if (List.length args =? 1)%nat then
       o <- new_object ;; ret (o, options)
     else ret (options, callback)) ;;
  let '(options, callback) := r in
  set_prop options "safe" (VBool true) ;;;
  fixID query ;;;
  coll <- get_prop this "_coll" ;;
  call_native coll "count" [query; options; callback] ;;;
  ret VUndefined.

(** The six operations of a collection handle, and the driver method each
    one delegates to. *)
Inductive method : Type := Find | FindOne | Save | Update | Delete | Count.

Definition Collection_prototype (m : method)
  : value -> list value -> M value :=
  match m with
  | Find => Collection_find
  | FindOne => Collection_findOne
  | Save => Collection_save
  | Update => Collection_update
  | Delete => Collection_delete
  | Count => Collection_count
  end.

Definition driver_method (m : method) : string :=
  match m with
  | Find => "find"
  | FindOne => "findOne"
  | Save => "save"
  | Update => "update"
  | Delete => "remove"
  | Count => "count"
  end.

(** ** Reading the heap *)

(** [read h l k] is the value of [l.k] in heap [h], when [l] is allocated. *)
Definition read (h : gmap loc object) (l : loc) (k : string) : option value :=
  (fun o => obj_get o k) <$> h !! l.

Definition alive (h : gmap loc object) (l : loc) : Prop := is_Some (h !! l).

(** The heap after [l.k = v]. *)
Definition write (l : loc) (k : string) (v : value) (h : gmap loc object)
  : gmap loc object :=
  match h !! l with
  | Some o => <[l := obj_set o k v]> h
  | None => h
  end.

(** What [fixID] makes of an [_id]. *)
Definition coerce_id (v : value) : value :=
  match v with
  | VStr s => if test_hex24 s then VObjectID s else v
  | _ => v
  end.

(** The heap after [fixID] on the object at [l]. *)
Definition fix_heap (l : loc) (h : gmap loc object) : gmap loc object :=
  match read h l "_id" with
  | Some (VStr s) => if test_hex24 s then write l "_id" (VObjectID s) h else h
  | _ => h
  end.

(** A 24-character hexadecimal string, in the words of the specification:
    exactly 24 characters, each of them a digit or a letter from a to f in
    either case. *)
Definition hex_digits : list ascii :=
  list_ascii_of_string "0123456789abcdefABCDEF".

Definition hex24 (s : string) : Prop :=
  String.length s = 24%nat /\
  Forall (fun c => c ∈ hex_digits) (list_ascii_of_string s).

(** ** Calls of the six operations *)

(** The argument lists the documentation allows, with the location of the
    object that [fixID] is applied to: the query of [find], [findOne],
    [delete] and [count], the record of [save] and [update].  The trailing
    [options] may be left out; where the operation assigns to it, it is an
    object of the heap.  Arguments may be the same object. *)
Inductive call_shape (h : gmap loc object)
  : method -> loc -> list value -> Prop :=
| find_2 q cb : call_shape h Find q [VRef q; cb]
| find_3 q o cb : call_shape h Find q [VRef q; o; cb]
| find_4 q f o cb : call_shape h Find q [VRef q; f; o; cb]
| findOne_2 q cb : call_shape h FindOne q [VRef q; cb]
| findOne_3 q o cb : call_shape h FindOne q [VRef q; o; cb]
| findOne_4 q f o cb : call_shape h FindOne q [VRef q; f; o; cb]
| save_2 r cb : call_shape h Save r [VRef r; cb]
| save_3 r o cb : alive h o -> call_shape h Save r [VRef r; VRef o; cb]
| update_3 c r cb : call_shape h Update r [c; VRef r; cb]
| update_4 c r o cb :
    alive h o -> call_shape h Update r [c; VRef r; VRef o; cb]
| delete_2 q cb : call_shape h Delete q [VRef q; cb]
| delete_3 q o cb : alive h o -> call_shape h Delete q [VRef q; VRef o; cb]
| count_2 q cb : call_shape h Count q [VRef q; cb]
| count_3 q o cb : alive h o -> call_shape h Count q [VRef q; VRef o; cb].

(** Where the coerced object and the options stand in the driver's
    argument list, and which operations force acknowledged writes. *)
Definition target_index (m : method) : nat :=
  match m with Update => 1%nat | _ => 0%nat end.

Definition options_index (m : method) : nat :=
  match m with Update => 2%nat | _ => 1%nat end.

Definition forces_safe (m : method) : bool :=
  match m with Find | FindOne => false | _ => true end.

(** ** The common tail of the six operations *)

(** After the argument-count test, every operation does the same: force
    [safe] (the three writing operations and [count]), coerce the [_id],
    fetch the driver's collection and call it. *)
Definition delegate (safe : bool) (meth : string) (this target options : value)
    (fwd : list value) (k : value -> M value) : M value :=
  (if safe then set_prop options "safe" (VBool true) else ret tt) ;;;
  fixID target ;;;
  coll <- get_prop this "_coll" ;;
  r <- call_native coll meth fwd ;;
  k r.

Definition delegated_heap (safe : bool) (lt : loc) (options : value)
    (h : gmap loc object) : gmap loc object :=
  fix_heap lt
    (match safe, options with
     | true, VRef lo => write lo "safe" (VBool true) h
     | _, _ => h
     end).

(** ** Handles *)

(** [v] is a [DB] made by [new DB(conn)]. *)
Definition is_db_handle (h : gmap loc object) (v conn : value) : Prop :=
  exists l ps, v = VRef l /\ h !! l = Some (Object KDB ps) /\
               ps !! "_db" = Some conn.

(** [v] is a [Collection] made by [new Collection(name, coll)]. *)
Definition is_collection_handle (h : gmap loc object) (v name coll : value)
  : Prop :=
  exists l ps, v = VRef l /\ h !! l = Some (Object KCollection ps) /\
               ps !! "_coll" = Some coll /\ ps !! "name" = Some name.

(** The request [coll.ensureIndex(index, function() {})]. *)
Definition is_ensure_index (coll : value) (h : gmap loc object)
    (index : value) (ev : event) : Prop :=
  exists r, ev = EvCall coll "ensureIndex" [index; VNoop] r h.

(** The argument list of [getCollection(name, [indexes,] callback)]. *)
Definition getCollection_args (name : value) (indexes : option value)
    (callback : value) : list value :=
  match indexes with
  | None => [name; callback]
  | Some i => [name; i; callback]
  end.

(** The index list that the continuation of [getCollection] finds in the
    heap when the driver answers: none when the list was left out or
    [null] was passed for it. *)
Definition index_list (h : gmap loc object) (indexes : option value)
  : option (list value) :=
  match indexes with
  | None | Some VNull => Some []
  | Some (VRef la) =>
      match h !! la with
      | Some (Object (KArray es) _) => Some es
      | _ => None
      end
  | Some _ => None
  end.

(** ** The document store *)

(** Modelled from the spec: the document store behind the driver, which is
    not part of this repository.  The specification says of [save] that it
    "performs an upsert-by-identity: if a record with the same identifier
    exists, it is fully overwritten; otherwise a new record is created
    (identifier auto-generated if absent)", and that it "returns the saved
    record on insert, or an update count on overwrite"; of [findOne] that it
    does a filtered read and "returns at most one record", a record or
    null.  A record passes the filter when it has every field of the query
    with the same value. *)
Module Store.

(** Modelled from the spec: a record, "arbitrary structured data", as the
    map of its fields. *)
Definition doc := gmap string value.

(** Modelled from the spec: the content of the store, and the counter its
    generated identifiers come from. *)
Record t : Type := Make { docs : list doc; next_id : nat }.

(** Modelled from the spec: the generated identifier is written with 24
    hexadecimal digits. *)
Definition hex_digit (n : nat) : ascii :=
  nth n (list_ascii_of_string "0123456789abcdef") "0"%char.

(** Modelled from the spec: [n] in hexadecimal, on [digits] digits. *)
Fixpoint hex_of (digits n : nat) : string :=
  match digits with
  | O => EmptyString
  | S d => (hex_of d (n / 16) ++ String (hex_digit (n mod 16)) EmptyString)
  end.

(** Modelled from the spec: the identifier the store generates ("identifier
    auto-generated if absent"), a native ObjectID. *)
Definition generated_id (n : nat) : value := VObjectID (hex_of 24 n).

(** Modelled from the spec: the record has this identifier. *)
Definition has_id (id : value) (d : doc) : bool :=
  bool_decide (d !! "_id" = Some id).

(** Modelled from the spec: upsert by identity.  Overwrite the record that
    has the identifier, or add a new one; the boolean tells which. *)
Fixpoint upsert (id : value) (d : doc) (ds : list doc) : list doc * bool :=
  match ds with
  | [] => ([d], false)
  | d' :: ds' =>
      if has_id id d' then (d :: ds', true)
      else let '(r, b) := upsert id d ds' in (d' :: r, b)
  end.

(** Modelled from the spec: the filter of a read. *)
Definition matches (query d : doc) : bool :=
  bool_decide (map_Forall (fun k v => d !! k = Some v) query).

(** Modelled from the spec: [findOne] "returns at most one record", the
    first that passes the filter. *)
Definition find_one (query : doc) (ds : list doc) : option doc :=
  List.find (matches query) ds.

(** Modelled from the spec: the driver's answer to one request, [save] or
    [findOne].  The store is consulted with the objects as the request shows
    them, and the callback of the request is called with [(null, result)]:
    the saved record on insert, the count 1 on overwrite, the record found
    or [null]. *)
Definition serve (ev : event) (st : t) : M t :=
  match ev with
  | EvCall _ meth (VRef target :: rest) _ h =>
      match h !! target, last rest with
      | Some o, Some cb =>
          if String.eqb meth "save" then
            let d := oprops o in
            let '(id, next) :=
              match d !! "_id" with
              | Some id => (id, next_id st)
              | None => (generated_id (next_id st), S (next_id st))
              end in
            let d' := <["_id" := id]> d in
            let '(ds, overwritten) := upsert id d' (docs st) in
            result <- (if overwritten : bool then ret (VNum 1)
                       else alloc (Object KPlain d')) ;;
            call cb [VNull; result] ;;;
            ret (Make ds next)
          else if String.eqb meth "findOne" then
            result <- match find_one (oprops o) (docs st) with
                      | Some d => alloc (Object KPlain d)
                      | None => ret VNull
                      end ;;
            call cb [VNull; result] ;;;
            ret st
          else stuck
      | _, _ => stuck
      end
  | _ => stuck
  end.

End Store.

(** ** A small world to run the operations in *)

Definition example_hex : string := "0123456789abcdefABCDEF01".

(** One query carrying a 24-character hexadecimal [_id], a collection
    handle, a database handle, a non-empty and an empty index list, and a
    record without [_id]. *)
Definition example_heap : gmap loc object :=
  <[0 := Object KPlain (<["_id" := VStr example_hex]> ∅)]>
  (<[1 := Object KCollection
               (<["_coll" := VNative 7]> (<["name" := VStr "author"]> ∅))]>
  (<[2 := Object KDB (<["_db" := VNative 3]> ∅)]>
  (<[3 := Object (KArray [VStr "_id"]) ∅]>
  (<[4 := Object (KArray []) ∅]>
  (<[5 := Object KPlain (<["name" := VStr "pvorb"]> ∅)]> ∅))))).

Definition example_state : state := State example_heap 10 [].

(** ** Argument lists and values, for the properties beyond the claims *)

(** The arguments of an operation called with its object (the query, or
    the criteria and the record of [update]), with or without options, and
    the callback. *)
Definition operation_args (m : method) (criteria target : value)
    (options : option value) (callback : value) : list value :=
  let tail := match options with
              | None => [callback]
              | Some o => [o; callback]
              end in
  match m with
  | Update => criteria :: target :: tail
  | _ => target :: tail
  end.

(** What the driver's method receives for them, [o] being the options the
    operation ends up with: [find] keeps the callback for [toArray]. *)
Definition forwarded_args (m : method) (criteria target o callback : value)
  : list value :=
  match m with
  | Find => [target; o]
  | Update => [criteria; target; o; callback]
  | _ => [target; o; callback]
  end.

(** What an operation does with the driver's return value: [find] calls
    [toArray] on the cursor, the others drop it. *)
Definition after_request (m : method) (callback : value) : value -> M value :=
  match m with
  | Find => fun cursor =>
      call_native cursor "toArray" [callback] ;;; ret VUndefined
  | _ => fun _ => ret VUndefined
  end.

(** The values on which a property assignment throws in strict mode. *)
Definition not_an_object (v : value) : bool :=
  match v with
  | VUndefined | VNull | VBool _ | VNum _ | VStr _ => true
  | _ => false
  end.

(** Booleans, numbers and strings. *)
Definition is_primitive (v : value) : bool :=
  match v with
  | VBool _ | VNum _ | VStr _ => true
  | _ => false
  end.

Definition is_nothing (v : value) : bool :=
  match v with
  | VUndefined | VNull => true
  | _ => false
  end.

(** Strings that differ by the case of their letters at most. *)
Definition same_up_to_case (s s' : string) : Prop :=
  Forall2 (fun c c' => upcase c = upcase c')
    (list_ascii_of_string s) (list_ascii_of_string s').

(** What is not a list of indexes although it is not [null]: [undefined],
    a boolean, a number, a non-empty string, an object that is not an array
    and has neither [length] nor [forEach]. *)
Definition not_index_list (h : gmap loc object) (v : value) : Prop :=
  match v with
  | VUndefined | VBool _ | VNum _ => True
  | VStr s => s <> EmptyString
  | VRef l =>
      exists k ps, h !! l = Some (Object k ps) /\
                   (forall es, k <> KArray es) /\
                   ps !! "length" = None /\ ps !! "forEach" = None
  | _ => False
  end.

(** The heap after [options.safe = true], where the operation does it. *)
Definition safe_heap (safe : bool) (options : value) (h : gmap loc object)
  : gmap loc object :=
  match safe, options with
  | true, VRef lo => write lo "safe" (VBool true) h
  | _, _ => h
  end.






(** The numbers of arguments at which an operation makes the options
    itself: two for [find], [findOne], [save] and [delete], three for
    [update], one or two for [count]. *)
Definition makes_options (m : method) (count : nat) : bool :=
  match m with
  | Update => (count =? 3)%nat
  | Count => ((count =? 2) || (count =? 1))%nat
  | _ => (count =? 2)%nat
  end.

(** * Properties *)

(** ** The regular expression *)

Lemma hex_class_i_decide (c : ascii) :
  hex_class_i c = bool_decide (c ∈ hex_digits).
Proof.
  destruct c as [[] [] [] [] [] [] [] []]; vm_compute; reflexivity.
Qed.

Lemma hex_class_i_spec (c : ascii) : hex_class_i c = true <-> c ∈ hex_digits.
Proof.
  rewrite hex_class_i_decide. apply bool_decide_eq_true.
Qed.

Lemma match_hex_n_spec (n : nat) (s : string) :
  match_hex_n n s = Some EmptyString <->
  String.length s = n /\
  Forall (fun c => c ∈ hex_digits) (list_ascii_of_string s).
Proof.
  revert s. induction n as [|n IH]; intros s; simpl.
  - destruct s as [|c s]; simpl.
    + split; [intros _; split; [reflexivity | constructor] | reflexivity].
    + split; [discriminate | intros [H _]; discriminate].
  - destruct s as [|c s]; simpl.
    + split; [discriminate | intros [H _]; discriminate].
    + destruct (hex_class_i c) eqn:Hc.
      * rewrite IH. apply hex_class_i_spec in Hc.
        split.
        -- intros [Hl Hf]. split; [congruence | constructor; assumption].
        -- intros [Hl Hf]. inversion Hf; subst.
           split; [congruence | assumption].
      * split; [discriminate |].
        intros [_ Hf]. inversion Hf as [|? ? Hin _]; subst.
        apply hex_class_i_spec in Hin. congruence.
Qed.

Example test_hex24_lower : test_hex24 "0123456789abcdef01234567" = true.
Proof. reflexivity. Qed.

Example test_hex24_mixed : test_hex24 "0123456789abcdefABCDEF01" = true.
Proof. reflexivity. Qed.

Example test_hex24_short : test_hex24 "0123456789abcdef0123456" = false.
Proof. reflexivity. Qed.

Example test_hex24_long : test_hex24 "0123456789abcdef012345678" = false.
Proof. reflexivity. Qed.

Example test_hex24_letter : test_hex24 "0123456789abcdef0123456g" = false.
Proof. reflexivity. Qed.

(** Without the [m] flag, [$] does not match before a final newline. *)
Example test_hex24_newline :
  test_hex24
    ("0123456789abcdef01234567" ++ String (ascii_of_nat 10) EmptyString)
  = false.
Proof. reflexivity. Qed.

(** The matcher of the source accepts exactly the strings the specification
    describes. *)
Lemma test_hex24_spec (s : string) : test_hex24 s = true <-> hex24 s.
Proof.
  unfold test_hex24, hex24. rewrite <- match_hex_n_spec.
  destruct (match_hex_n 24 s) as [[|c r]|]; split; congruence.
Qed.

Lemma coerce_id_hex (s : string) :
  hex24 s -> coerce_id (VStr s) = VObjectID s.
Proof.
  intros H. apply test_hex24_spec in H. simpl. rewrite H. reflexivity.
Qed.

Lemma coerce_id_other (v : value) :
  (forall s, v = VStr s -> ~ hex24 s) -> coerce_id v = v.
Proof.
  intros H. destruct v; simpl; try reflexivity.
  destruct (test_hex24 s) eqn:E; [|reflexivity].
  exfalso. apply (H s); [reflexivity | apply test_hex24_spec; assumption].
Qed.

(** ** The heap *)

Lemma obj_get_set (o : object) (k k' : string) (v : value) :
  String.eqb k "length" = false ->
  obj_get (obj_set o k v) k' = if decide (k' = k) then v else obj_get o k'.
Proof.
  intros Hk. unfold obj_get, obj_set. simpl.
  destruct (decide (k' = k)) as [->|Hne].
  - rewrite Hk, lookup_insert_eq. destruct (okind o); reflexivity.
  - rewrite lookup_insert_ne by congruence. reflexivity.
Qed.

Lemma alive_write (l l' : loc) (k : string) (v : value) (h : gmap loc object) :
  alive (write l k v h) l' <-> alive h l'.
Proof.
  unfold alive, write. destruct (h !! l) as [o|] eqn:E; [|reflexivity].
  rewrite lookup_insert. destruct (decide (l = l')) as [<-|Hl]; [|reflexivity].
  rewrite E. split; eauto.
Qed.

Lemma read_write (l l' : loc) (k k' : string) (v : value)
    (h : gmap loc object) :
  alive h l -> String.eqb k "length" = false ->
  read (write l k v h) l' k' =
  if decide (l' = l /\ k' = k) then Some v else read h l' k'.
Proof.
  intros [o Ho] Hk. unfold read, write. rewrite Ho.
  rewrite lookup_insert.
  destruct (decide (l = l')) as [<-|Hl].
  - simpl. rewrite obj_get_set, Ho by assumption. simpl.
    destruct (decide (k' = k)) as [->|Hk'];
      destruct (decide (l = l /\ _)) as [Hd|Hd]; try reflexivity.
    + exfalso. apply Hd. split; reflexivity.
    + destruct Hd; congruence.
  - destruct (decide (l' = l /\ _)) as [[Hd _]|Hd]; [congruence | reflexivity].
Qed.

Lemma read_write_ne (l l' : loc) (k k' : string) (v : value)
    (h : gmap loc object) :
  k' <> k -> read (write l k v h) l' k' = read h l' k'.
Proof.
  intros Hk. unfold read, write. destruct (h !! l) as [o|] eqn:Ho; [|reflexivity].
  rewrite lookup_insert. destruct (decide (l = l')) as [<-|Hl]; [|reflexivity].
  rewrite Ho. simpl. f_equal. unfold obj_get, obj_set. simpl.
  rewrite lookup_insert_ne by congruence. reflexivity.
Qed.

Lemma alive_fix_heap (l l' : loc) (h : gmap loc object) :
  alive (fix_heap l h) l' <-> alive h l'.
Proof.
  unfold fix_heap. destruct (read h l "_id") as [[]|]; try reflexivity.
  destruct (test_hex24 s); [apply alive_write | reflexivity].
Qed.

Lemma read_fix_heap (l l' : loc) (k' : string) (h : gmap loc object) :
  read (fix_heap l h) l' k' =
  if decide (l' = l /\ k' = "_id") then coerce_id <$> read h l "_id"
  else read h l' k'.
Proof.
  unfold fix_heap.
  destruct (read h l "_id") as [v|] eqn:E.
  - assert (Hal : alive h l).
    { unfold read in E. unfold alive. destruct (h !! l); [eauto | discriminate]. }
    destruct v; simpl;
      try (destruct (decide _) as [[-> ->]|Hd]; [exact E | reflexivity]).
    destruct (test_hex24 s) eqn:Ht.
    + rewrite read_write by (assumption || reflexivity). reflexivity.
    + destruct (decide _) as [[-> ->]|Hd]; [exact E | reflexivity].
  - simpl. destruct (decide _) as [[-> ->]|Hd]; [exact E | reflexivity].
Qed.

Lemma read_fix_heap_ne (l l' : loc) (k' : string) (h : gmap loc object) :
  k' <> "_id" -> read (fix_heap l h) l' k' = read h l' k'.
Proof.
  intros Hk. rewrite read_fix_heap.
  destruct (decide _) as [[_ Hd]|Hd]; [congruence | reflexivity].
Qed.

Lemma fresh_not_alive (h : gmap loc object) : ~ alive h (fresh (dom h)).
Proof.
  unfold alive. intros H. apply elem_of_dom in H. exact (is_fresh _ H).
Qed.

Lemma alive_insert (l l' : loc) (o : object) (h : gmap loc object) :
  alive (<[l := o]> h) l' <-> l' = l \/ alive h l'.
Proof.
  unfold alive. rewrite lookup_insert.
  destruct (decide (l = l')) as [<-|Hl].
  - split; eauto.
  - split; [eauto | intros [?|?]; congruence || assumption].
Qed.

Lemma read_insert (l l' : loc) (k' : string) (o : object)
    (h : gmap loc object) :
  read (<[l := o]> h) l' k' =
  if decide (l' = l) then Some (obj_get o k') else read h l' k'.
Proof.
  unfold read. rewrite lookup_insert.
  destruct (decide (l = l')) as [<-|Hl]; destruct (decide _) as [Hd|Hd];
    congruence || reflexivity.
Qed.

Lemma alive_ne_fresh (h : gmap loc object) (l : loc) :
  alive h l -> l <> fresh (dom h).
Proof.
  intros Hl ->. exact (fresh_not_alive h Hl).
Qed.

Lemma read_alloc_ne (l' : loc) (k' : string) (o : object)
    (h : gmap loc object) :
  alive h l' -> read (<[fresh (dom h) := o]> h) l' k' = read h l' k'.
Proof.
  intros Hl. rewrite read_insert.
  destruct (decide _) as [Hd|Hd]; [|reflexivity].
  exfalso. exact (alive_ne_fresh h l' Hl Hd).
Qed.

Lemma read_alive (h : gmap loc object) (l : loc) (k : string) (v : value) :
  read h l k = Some v -> alive h l.
Proof.
  unfold read, alive. destruct (h !! l); [eauto | discriminate].
Qed.

Lemma alive_read (h : gmap loc object) (l : loc) (k : string) :
  alive h l -> is_Some (read h l k).
Proof.
  unfold read, alive. intros [o ->]. simpl. eauto.
Qed.

(** ** Running the primitives *)

Lemma bind_run {A B} (m : M A) (k : A -> M B) (s s' : state) (a : A) :
  m s = (Ret a, s') -> bind m k s = k a s'.
Proof. intros H. unfold bind. rewrite H. reflexivity. Qed.

Lemma get_prop_run (l : loc) (k : string) (v : value) (s : state) :
  read (heap s) l k = Some v -> get_prop (VRef l) k s = (Ret v, s).
Proof.
  unfold read. simpl. destruct (heap s !! l); simpl; congruence.
Qed.

Lemma set_prop_run (l : loc) (k : string) (v : value) (s : state) :
  alive (heap s) l -> String.eqb k "length" = false ->
  set_prop (VRef l) k v s =
  (Ret tt, State (write l k v (heap s)) (natives s) (trace s)).
Proof.
  intros [o Ho] Hk. unfold write. simpl. rewrite Ho, Hk. reflexivity.
Qed.

Lemma fixID_run (l : loc) (h : gmap loc object) (n : nat) (t : list event) :
  alive h l ->
  fixID (VRef l) (State h n t) = (Ret tt, State (fix_heap l h) n t).
Proof.
  intros Hl. destruct (alive_read h l "_id" Hl) as [v Hv].
  unfold fixID. erewrite bind_run by (apply get_prop_run; exact Hv).
  unfold fix_heap. rewrite Hv.
  destruct v; try reflexivity.
  destruct (test_hex24 s); [|reflexivity].
  rewrite set_prop_run by (assumption || reflexivity). reflexivity.
Qed.

Lemma call_native_run (c : nat) (meth : string) (args : list value)
    (h : gmap loc object) (n : nat) (t : list event) :
  call_native (VNative c) meth args (State h n t) =
  (Ret (VNative n),
   State h (S n) (t ++ [EvCall (VNative c) meth args (VNative n) h])).
Proof. reflexivity. Qed.

(** ** The common tail of the six operations *)

Lemma delegate_run (safe : bool) (meth : string) (lc lt : loc) (c : nat)
    (options : value) (fwd : list value) (k : value -> M value)
    (h : gmap loc object) (n : nat) (t : list event) :
  alive h lt ->
  (safe = true -> exists lo, options = VRef lo /\ alive h lo) ->
  read h lc "_coll" = Some (VNative c) ->
  delegate safe meth (VRef lc) (VRef lt) options fwd k (State h n t) =
  let h' := delegated_heap safe lt options h in
  k (VNative n)
    (State h' (S n) (t ++ [EvCall (VNative c) meth fwd (VNative n) h'])).
Proof.
  intros Ht Ho Hc. unfold delegate, delegated_heap.
  destruct safe.
  - destruct (Ho eq_refl) as (lo & -> & Hlo).
    erewrite bind_run by (apply set_prop_run; [exact Hlo | reflexivity]).
    simpl heap. simpl natives. simpl trace.
    erewrite bind_run by (apply fixID_run; apply alive_write; exact Ht).
    erewrite bind_run.
    2:{ apply get_prop_run. simpl heap.
        rewrite read_fix_heap_ne, read_write_ne by discriminate. exact Hc. }
    erewrite bind_run by apply call_native_run.
    reflexivity.
  - erewrite bind_run by reflexivity.
    erewrite bind_run by (apply fixID_run; exact Ht).
    erewrite bind_run.
    2:{ apply get_prop_run. simpl heap.
        rewrite read_fix_heap_ne by discriminate. exact Hc. }
    erewrite bind_run by apply call_native_run.
    reflexivity.
Qed.

(** The steps shared by the cases of [method_run]. *)
Ltac run_delegate lc lt c :=
  rewrite (delegate_run _ _ lc lt c) by (eauto || discriminate);
  unfold bind, ret, delegated_heap; simpl;
  rewrite <- ?app_assoc; reflexivity.

Ltac method_side :=
  repeat split; try discriminate; try reflexivity; auto;
  try (intros; rewrite ?read_write_ne by assumption; auto; fail);
  try (intros; apply alive_write; auto; fail);
  try (intros; eexists; split; [reflexivity | auto]; fail).

(** Every documented call of the six operations succeeds, sends one request
    to the driver's method of the same purpose, and changes the heap only
    by (possibly) a new options object, the [safe] flag and [fixID]. *)
Lemma method_run (m : method) (lt : loc) (args : list value) (lc : loc)
    (c : nat) (h : gmap loc object) (n : nat) (t : list event) :
  call_shape h m lt args -> alive h lt ->
  read h lc "_coll" = Some (VNative c) ->
  exists (h0 : gmap loc object) (fwd : list value) (rest : list event)
         (n' : nat),
    Collection_prototype m (VRef lc) args (State h n t) =
      (Ret VUndefined,
       State (fix_heap lt h0) n'
         (t ++ EvCall (VNative c) (driver_method m) fwd (VNative n)
                 (fix_heap lt h0) :: rest)) /\
    nth (target_index m) fwd VUndefined = VRef lt /\
    (forall l k, alive h l -> k <> "safe" -> read h0 l k = read h l k) /\
    (forall l, alive h l -> alive h0 l) /\
    (forces_safe m = true ->
     rest = [] /\
     exists lo, nth (options_index m) fwd VUndefined = VRef lo /\
                read h0 lo "safe" = Some (VBool true)) /\
    (m = Update -> nth 0 fwd VUndefined = nth 0 args VUndefined).
Proof.
  intros Hs Ht Hc.
  assert (Hf := alive_ne_fresh h).
  set (lo := fresh (dom h)).
  set (hn := <[lo := Object KPlain ∅]> h).
  assert (Hnt : alive hn lt) by (apply alive_insert; right; exact Ht).
  assert (Hnc : read hn lc "_coll" = Some (VNative c)).
  { unfold hn, lo. rewrite read_alloc_ne by (eapply read_alive; exact Hc).
    exact Hc. }
  assert (Hno : alive hn lo) by (apply alive_insert; left; reflexivity).
  assert (Hkeep : forall l k, alive h l -> read hn l k = read h l k).
  { intros l k Hl. unfold hn, lo. apply read_alloc_ne. exact Hl. }
  assert (Hal : forall l, alive h l -> alive hn l).
  { intros l Hl. apply alive_insert. right. exact Hl. }
  assert (Hsafe : forall (hh : gmap loc object) l,
             alive hh l ->
             read (write l "safe" (VBool true) hh) l "safe"
             = Some (VBool true)).
  { intros hh l Hl. rewrite read_write by (assumption || reflexivity).
    destruct (decide _) as [_|Hd]; [reflexivity | exfalso; apply Hd; auto]. }
  destruct Hs as [q cb|q o cb|q f o cb|q cb|q o cb|q f o cb
                  |r cb|r o cb Ho|cr r cb|cr r o cb Ho
                  |q cb|q o cb Ho|q cb|q o cb Ho].
  - (* find(query, callback) *)
    exists hn, [VRef q; VRef lo],
      [EvCall (VNative n) "toArray" [cb] (VNative (S n)) (fix_heap q hn)],
      (S (S n)).
    split; [|method_side].
    change (Collection_prototype Find (VRef lc) [VRef q; cb] (State h n t))
      with (delegate false "find" (VRef lc) (VRef q) (VRef lo)
              [VRef q; VRef lo]
              (fun cursor => call_native cursor "toArray" [cb] ;;;
                             ret VUndefined) (State hn n t)).
    run_delegate lc q c.
  - (* find(query, options, callback) *)
    exists h, [VRef q; o],
      [EvCall (VNative n) "toArray" [cb] (VNative (S n)) (fix_heap q h)],
      (S (S n)).
    split; [|method_side].
    change (Collection_prototype Find (VRef lc) [VRef q; o; cb]
              (State h n t))
      with (delegate false "find" (VRef lc) (VRef q) o [VRef q; o]
              (fun cursor => call_native cursor "toArray" [cb] ;;;
                             ret VUndefined) (State h n t)).
    run_delegate lc q c.
  - (* find(query, fields, options, callback) *)
    exists h,
      (match f with VNull => [VRef q; o] | _ => [VRef q; f; o] end),
      [EvCall (VNative n) "toArray" [cb] (VNative (S n)) (fix_heap q h)],
      (S (S n)).
    split; [|destruct f; method_side].
    destruct f;
      match goal with
      | |- Collection_prototype Find _ [_; ?f; _; _] _ = (_, State _ _ (_ ++ EvCall _ _ ?fwd _ _ :: _)) =>
          change (Collection_prototype Find (VRef lc) [VRef q; f; o; cb]
                    (State h n t))
            with (delegate false "find" (VRef lc) (VRef q) o fwd
                    (fun cursor => call_native cursor "toArray" [cb] ;;;
                                   ret VUndefined) (State h n t))
      end; run_delegate lc q c.
  - (* findOne(query, callback) *)
    exists hn, [VRef q; VRef lo; cb], [], (S n).
    split; [|method_side].
    change (Collection_prototype FindOne (VRef lc) [VRef q; cb]
              (State h n t))
      with (delegate false "findOne" (VRef lc) (VRef q) (VRef lo)
              [VRef q; VRef lo; cb] (fun _ => ret VUndefined)
              (State hn n t)).
    run_delegate lc q c.
  - (* findOne(query, options, callback) *)
    exists h, [VRef q; o; cb], [], (S n).
    split; [|method_side].
    change (Collection_prototype FindOne (VRef lc) [VRef q; o; cb]
              (State h n t))
      with (delegate false "findOne" (VRef lc) (VRef q) o
              [VRef q; o; cb] (fun _ => ret VUndefined) (State h n t)).
    run_delegate lc q c.
  - (* findOne(query, fields, options, callback) *)
    exists h,
      (match f with
       | VNull => [VRef q; o; cb]
       | _ => [VRef q; f; o; cb]
       end), [], (S n).
    split; [|destruct f; method_side].
    destruct f;
      match goal with
      | |- Collection_prototype FindOne _ [_; ?f; _; _] _ = (_, State _ _ (_ ++ EvCall _ _ ?fwd _ _ :: _)) =>
          change (Collection_prototype FindOne (VRef lc)
                    [VRef q; f; o; cb] (State h n t))
            with (delegate false "findOne" (VRef lc) (VRef q) o fwd
                    (fun _ => ret VUndefined) (State h n t))
      end; run_delegate lc q c.
  - (* save(record, callback) *)
    exists (write lo "safe" (VBool true) hn), [VRef r; VRef lo; cb], [],
      (S n).
    split; [|method_side].
    change (Collection_prototype Save (VRef lc) [VRef r; cb] (State h n t))
      with (delegate true "save" (VRef lc) (VRef r) (VRef lo)
              [VRef r; VRef lo; cb] (fun _ => ret VUndefined)
              (State hn n t)).
    run_delegate lc r c.
  - (* save(record, options, callback) *)
    exists (write o "safe" (VBool true) h), [VRef r; VRef o; cb], [], (S n).
    split; [|method_side].
    change (Collection_prototype Save (VRef lc) [VRef r; VRef o; cb]
              (State h n t))
      with (delegate true "save" (VRef lc) (VRef r) (VRef o)
              [VRef r; VRef o; cb] (fun _ => ret VUndefined)
              (State h n t)).
    run_delegate lc r c.
  - (* update(criteria, record, callback) *)
    exists (write lo "safe" (VBool true) hn), [cr; VRef r; VRef lo; cb], [],
      (S n).
    split; [|method_side].
    change (Collection_prototype Update (VRef lc) [cr; VRef r; cb]
              (State h n t))
      with (delegate true "update" (VRef lc) (VRef r) (VRef lo)
              [cr; VRef r; VRef lo; cb] (fun _ => ret VUndefined)
              (State hn n t)).
    run_delegate lc r c.
  - (* update(criteria, record, options, callback) *)
    exists (write o "safe" (VBool true) h), [cr; VRef r; VRef o; cb], [],
      (S n).
    split; [|method_side].
    change (Collection_prototype Update (VRef lc) [cr; VRef r; VRef o; cb]
              (State h n t))
      with (delegate true "update" (VRef lc) (VRef r) (VRef o)
              [cr; VRef r; VRef o; cb] (fun _ => ret VUndefined)
              (State h n t)).
    run_delegate lc r c.
  - (* delete(query, callback) *)
    exists (write lo "safe" (VBool true) hn), [VRef q; VRef lo; cb], [],
      (S n).
    split; [|method_side].
    change (Collection_prototype Delete (VRef lc) [VRef q; cb]
              (State h n t))
      with (delegate true "remove" (VRef lc) (VRef q) (VRef lo)
              [VRef q; VRef lo; cb] (fun _ => ret VUndefined)
              (State hn n t)).
    run_delegate lc q c.
  - (* delete(query, options, callback) *)
    exists (write o "safe" (VBool true) h), [VRef q; VRef o; cb], [], (S n).
    split; [|method_side].
    change (Collection_prototype Delete (VRef lc) [VRef q; VRef o; cb]
              (State h n t))
      with (delegate true "remove" (VRef lc) (VRef q) (VRef o)
              [VRef q; VRef o; cb] (fun _ => ret VUndefined)
              (State h n t)).
    run_delegate lc q c.
  - (* count(query, callback) *)
    exists (write lo "safe" (VBool true) hn), [VRef q; VRef lo; cb], [],
      (S n).
    split; [|method_side].
    change (Collection_prototype Count (VRef lc) [VRef q; cb]
              (State h n t))
      with (delegate true "count" (VRef lc) (VRef q) (VRef lo)
              [VRef q; VRef lo; cb] (fun _ => ret VUndefined)
              (State hn n t)).
    run_delegate lc q c.
  - (* count(query, options, callback) *)
    exists (write o "safe" (VBool true) h), [VRef q; VRef o; cb], [], (S n).
    split; [|method_side].
    change (Collection_prototype Count (VRef lc) [VRef q; VRef o; cb]
              (State h n t))
      with (delegate true "count" (VRef lc) (VRef q) (VRef o)
              [VRef q; VRef o; cb] (fun _ => ret VUndefined)
              (State h n t)).
    run_delegate lc q c.
Qed.

(** ** Constructors and the two continuations *)

Lemma new_DB_run (conn : value) (h : gmap loc object) (n : nat)
    (t : list event) :
  exists l h',
    new_DB conn (State h n t) = (Ret (VRef l), State h' n t) /\
    is_db_handle h' (VRef l) conn /\
    (forall l', alive h l' -> h' !! l' = h !! l').
Proof.
  set (l := fresh (dom h)).
  exists l, (<[l := Object KDB (<["_db" := conn]> ∅)]> h).
  split; [|split].
  - unfold new_DB, bind, alloc, ret. simpl. fold l.
    rewrite lookup_insert_eq. simpl. unfold obj_set. simpl.
    rewrite insert_insert_eq. reflexivity.
  - exists l, (<["_db" := conn]> ∅).
    rewrite !lookup_insert_eq. auto.
  - intros l' Hl'. apply lookup_insert_ne.
    intros E. apply (fresh_not_alive h). fold l. rewrite E. exact Hl'.
Qed.

Lemma new_Collection_run (name coll : value) (h : gmap loc object) (n : nat)
    (t : list event) :
  exists l h',
    new_Collection name coll (State h n t) = (Ret (VRef l), State h' n t) /\
    is_collection_handle h' (VRef l) name coll /\
    (forall l', alive h l' -> h' !! l' = h !! l').
Proof.
  set (l := fresh (dom h)).
  exists l,
    (<[l := Object KCollection (<["name" := name]> (<["_coll" := coll]> ∅))]>
       h).
  split; [|split].
  - unfold new_Collection, bind, alloc, ret. simpl. fold l.
    rewrite lookup_insert_eq. simpl. rewrite lookup_insert_eq. simpl.
    unfold obj_set. simpl. rewrite !insert_insert_eq. reflexivity.
  - exists l, (<["name" := name]> (<["_coll" := coll]> ∅)).
    rewrite !lookup_insert_eq. repeat split.
  - intros l' Hl'. apply lookup_insert_ne.
    intros E. apply (fresh_not_alive h). fold l. rewrite E. exact Hl'.
Qed.

(** The function given to [ensureIndex] ignores whatever it is called
    with. *)
Lemma noop_ignores (args : list value) (s : state) :
  call VNoop args s = (Ret VUndefined, s).
Proof. reflexivity. Qed.

Lemma call_user (f : nat) (args : list value) (h : gmap loc object)
    (n : nat) (t : list event) :
  call (VFun f) args (State h n t) =
  (Ret VUndefined, State h n (t ++ [EvInvoke f args])).
Proof. reflexivity. Qed.

(** One [ensureIndex] request per entry of the index list, in order, none
    of which touches the heap. *)
Lemma for_each_ensure (c : nat) (es : list value) (h : gmap loc object)
    (n : nat) (t : list event) :
  exists evs n',
    for_each_list
      (fun index => call_native (VNative c) "ensureIndex" [index; VNoop])
      es (State h n t) = (Ret tt, State h n' (t ++ evs)) /\
    Forall2 (is_ensure_index (VNative c) h) es evs.
Proof.
  revert n t. induction es as [|e es IH]; intros n t.
  - exists [], n. simpl. rewrite app_nil_r. split; [reflexivity | constructor].
  - destruct (IH (S n)
                (t ++ [EvCall (VNative c) "ensureIndex" [e; VNoop]
                         (VNative n) h])%list)
      as (evs & n' & Hrun & Hall).
    exists (EvCall (VNative c) "ensureIndex" [e; VNoop] (VNative n) h :: evs),
      n'.
    split.
    + cbn [for_each_list]. erewrite bind_run by apply call_native_run.
      rewrite Hrun, <- app_assoc. reflexivity.
    + constructor; [exists (VNative n); reflexivity | exact Hall].
Qed.

(** The error branch of both continuations: the caller's function gets the
    error and nothing else. *)
Lemma open_error (f : nat) (err conn : value) (h : gmap loc object)
    (n : nat) (t : list event) :
  truthy err = true ->
  call (VOpenCb (VFun f)) [err; conn] (State h n t) =
  (Ret VUndefined, State h n (t ++ [EvInvoke f [err]])).
Proof.
  intros He. cbn [call]. unfold open_body, arg. cbn [nth].
  rewrite He. reflexivity.
Qed.

Lemma collection_error (f : nat) (name indexes err coll : value)
    (h : gmap loc object) (n : nat) (t : list event) :
  truthy err = true ->
  call (VCollectionCb name indexes (VFun f)) [err; coll] (State h n t) =
  (Ret VUndefined, State h n (t ++ [EvInvoke f [err]])).
Proof.
  intros He. cbn [call]. unfold collection_body, arg. cbn [nth].
  rewrite He. reflexivity.
Qed.

(** The success branch of the continuation of [connect]. *)
Lemma open_success (f : nat) (err conn : value) (h : gmap loc object)
    (n : nat) (t : list event) :
  truthy err = false ->
  exists db h',
    call (VOpenCb (VFun f)) [err; conn] (State h n t) =
    (Ret VUndefined, State h' n (t ++ [EvInvoke f [VNull; db]])) /\
    is_db_handle h' db conn.
Proof.
  intros He. destruct (new_DB_run conn h n t) as (l & h' & Hrun & Hdb & _).
  exists (VRef l), h'. split; [|exact Hdb].
  cbn [call]. unfold open_body, arg. cbn [nth]. rewrite He.
  erewrite bind_run by exact Hrun. reflexivity.
Qed.

(** [getCollection] only registers its continuation with the driver. *)
Lemma getCollection_run (ld : loc) (d : nat) (args : list value)
    (h : gmap loc object) (n : nat) (t : list event) :
  read h ld "_db" = Some (VNative d) ->
  DB_getCollection (VRef ld) args (State h n t) =
  (Ret VUndefined,
   State h (S n)
     (t ++ [EvCall (VNative d) "collection"
              [arg 0 args;
               if (List.length args =? 2)%nat
               then VCollectionCb (arg 0 args) VNull (arg 1 args)
               else VCollectionCb (arg 0 args) (arg 1 args) (arg 2 args)]
              (VNative n) h])).
Proof.
  intros Hd. unfold DB_getCollection.
  destruct (List.length args =? 2)%nat;
    (erewrite bind_run by (apply get_prop_run; exact Hd));
    reflexivity.
Qed.

(** ** [connect] and [getCollection] *)

(** [connect(options, callback)] with an options object: defaults for host
    and port, [strict] off and [safe] on, then server, connector and the
    request to open, with a continuation that closes over [callback]. *)
Lemma connect_run (lo : loc) (cb vh vp vn : value) (h : gmap loc object)
    (n : nat) (t : list event) :
  read h lo "host" = Some vh ->
  read h lo "port" = Some vp ->
  read h lo "name" = Some vn ->
  connect [VRef lo; cb] (State h n t) =
  let h1 := write lo "safe" (VBool true) (write lo "strict" (VBool false) h) in
  (Ret VUndefined,
   State h1 (S (S (S n)))
     (t ++ [EvNew "Server"
              [js_or vh (VStr "localhost"); js_or vp (VNum 27017); VRef lo]
              (VNative n) h1;
            EvNew "Db" [vn; VNative n; VRef lo] (VNative (S n)) h1;
            EvCall (VNative (S n)) "open" [VOpenCb cb] (VNative (S (S n)))
              h1])).
Proof.
  intros Hh Hp Hn.
  assert (Hal : alive h lo) by (eapply read_alive; exact Hh).
  unfold connect. cbn [List.length Nat.eqb arg nth].
  erewrite bind_run by reflexivity.
  erewrite bind_run by (apply get_prop_run; exact Hh).
  erewrite bind_run by (apply get_prop_run; exact Hp).
  erewrite bind_run by (apply set_prop_run; [exact Hal | reflexivity]).
  erewrite bind_run.
  2:{ apply set_prop_run; [apply alive_write; exact Hal | reflexivity]. }
  cbn [heap natives trace].
  erewrite bind_run by reflexivity.
  erewrite bind_run.
  2:{ apply get_prop_run. cbn [heap].
      rewrite !read_write_ne by discriminate. exact Hn. }
  erewrite bind_run by reflexivity.
  erewrite bind_run by apply call_native_run.
  cbn [heap natives trace]. unfold ret. rewrite <- !app_assoc. reflexivity.
Qed.

(** [connect(x)]: the only argument is replaced by a new, empty options
    object, and the continuation closes over [undefined]. *)
Lemma connect_single_run (x : value) (h : gmap loc object) (n : nat)
    (t : list event) :
  exists lo h1,
    connect [x] (State h n t) =
    (Ret VUndefined,
     State h1 (S (S (S n)))
       (t ++ [EvNew "Server" [VStr "localhost"; VNum 27017; VRef lo]
                (VNative n) h1;
              EvNew "Db" [VUndefined; VNative n; VRef lo] (VNative (S n)) h1;
              EvCall (VNative (S n)) "open" [VOpenCb VUndefined]
                (VNative (S (S n))) h1])) /\
    read h1 lo "strict" = Some (VBool false) /\
    read h1 lo "safe" = Some (VBool true).
Proof.
  set (lo := fresh (dom h)).
  set (h0 := <[lo := Object KPlain ∅]> h).
  assert (Hrd : forall k, read h0 lo k = Some VUndefined).
  { intros k. unfold h0. rewrite read_insert.
    destruct (decide _) as [_|Hd]; [reflexivity | congruence]. }
  assert (Hal : alive h0 lo) by (eapply read_alive; apply (Hrd "host")).
  exists lo, (write lo "safe" (VBool true) (write lo "strict" (VBool false) h0)).
  split; [|split].
  - change (connect [x] (State h n t))
      with (connect [VRef lo; VUndefined] (State h0 n t)).
    rewrite (connect_run lo VUndefined VUndefined VUndefined VUndefined)
      by apply Hrd.
    reflexivity.
  - rewrite read_write_ne by discriminate.
    rewrite read_write by (assumption || reflexivity).
    destruct (decide _) as [_|Hd]; [reflexivity | exfalso; apply Hd; auto].
  - rewrite read_write by (reflexivity || apply alive_write; assumption).
    destruct (decide _) as [_|Hd]; [reflexivity | exfalso; apply Hd; auto].
Qed.

(** A continuation that closed over [undefined] makes the handle and then
    throws at the call. *)
Lemma open_undefined_success (err conn : value) (h : gmap loc object)
    (n : nat) (t : list event) :
  truthy err = false ->
  exists h',
    call (VOpenCb VUndefined) [err; conn] (State h n t) =
    (Throw "callback is not a function", State h' n t).
Proof.
  intros He. destruct (new_DB_run conn h n t) as (l & h' & Hrun & _).
  exists h'. cbn [call]. unfold open_body, arg. cbn [nth]. rewrite He.
  erewrite bind_run by exact Hrun. reflexivity.
Qed.

(** The success branch of the continuation of [getCollection], for the
    index list [es] that the heap holds at that time. *)
Lemma collection_success (f : nat) (name err : value) (c : nat)
    (indexes : option value) (es : list value) (h : gmap loc object)
    (n : nat) (t : list event) :
  truthy err = false ->
  index_list h indexes = Some es ->
  exists evs hd h' n',
    call (VCollectionCb name (default VNull indexes) (VFun f))
      [err; VNative c] (State h n t) =
    (Ret VUndefined,
     State h' n' (t ++ evs ++ [EvInvoke f [VNull; hd]])) /\
    Forall2 (is_ensure_index (VNative c) h) es evs /\
    is_collection_handle h' hd name (VNative c).
Proof.
  intros He Hes. cbn [call]. unfold collection_body, arg. cbn [nth].
  rewrite He.
  destruct indexes as [i|]; unfold default, from_option, id;
    cbn [index_list] in Hes.
  - destruct i; try discriminate.
    { (* null *)
      injection Hes as <-.
      destruct (new_Collection_run name (VNative c) h n t)
        as (lh & h' & Hrun & Hh & _).
      exists [], (VRef lh), h', n.
      split; [|split; [constructor | exact Hh]].
      cbv iota.
      erewrite bind_run by reflexivity.
      cbv iota.
      erewrite bind_run by exact Hrun.
      reflexivity. }
    destruct (h !! l) as [[[] ps]|] eqn:Hl; try discriminate.
    injection Hes as ->. cbv iota.
    assert (Hlen : (len <- get_prop (VRef l) "length" ;; loose_eq_zero len)
                     (State h n t)
                   = (Ret (Z.of_nat (List.length es) =? 0)%Z, State h n t)).
    { erewrite bind_run.
      2:{ apply get_prop_run. unfold read. cbn [heap]. rewrite Hl.
          reflexivity. }
      reflexivity. }
    destruct es as [|e es].
    + destruct (new_Collection_run name (VNative c) h n t)
        as (lh & h' & Hrun & Hh & _).
      exists [], (VRef lh), h', n.
      split; [|split; [constructor | exact Hh]].
      erewrite bind_run by exact Hlen.
      change (Z.of_nat (List.length (@nil value)) =? 0)%Z with true.
      cbv iota.
      erewrite bind_run by exact Hrun.
      reflexivity.
    + destruct (for_each_ensure c (e :: es) h n t)
        as (evs & n' & Hrun & Hall).
      destruct (new_Collection_run name (VNative c) h n' (t ++ evs))
        as (lh & h' & Hnew & Hh & _).
      exists evs, (VRef lh), h', n'.
      split; [|split; assumption].
      erewrite bind_run by exact Hlen.
      change (Z.of_nat (List.length (e :: es)) =? 0)%Z with false.
      cbv iota.
      erewrite bind_run.
      2:{ unfold for_each. cbn [heap]. rewrite Hl. exact Hrun. }
      erewrite bind_run by exact Hnew.
      unfold bind, ret, emit. cbn [heap natives trace].
      rewrite <- app_assoc. reflexivity.
  - injection Hes as <-.
    destruct (new_Collection_run name (VNative c) h n t)
      as (lh & h' & Hrun & Hh & _).
    exists [], (VRef lh), h', n.
    split; [|split; [constructor | exact Hh]].
    cbv iota.
    erewrite bind_run by reflexivity.
    cbv iota.
    erewrite bind_run by exact Hrun.
    reflexivity.
Qed.

(** ** The store *)

Lemma matches_id (id : value) (d : Store.doc) :
  Store.matches {["_id" := id]} d = Store.has_id id d.
Proof.
  unfold Store.matches, Store.has_id.
  apply bool_decide_ext.
  exact (map_Forall_singleton (fun k v => d !! k = Some v) "_id" id).
Qed.

(** After an upsert, the record found under the identifier is the one just
    written. *)
Lemma find_one_upsert (id : value) (d : Store.doc) (ds : list Store.doc) :
  d !! "_id" = Some id ->
  Store.find_one {["_id" := id]} (Store.upsert id d ds).1 = Some d.
Proof.
  intros Hd.
  assert (Hm : Store.matches {["_id" := id]} d = true).
  { rewrite matches_id. apply bool_decide_eq_true. exact Hd. }
  unfold Store.find_one.
  induction ds as [|d' ds IH]; simpl.
  - rewrite Hm. reflexivity.
  - destruct (Store.has_id id d') eqn:E; simpl.
    + rewrite Hm. reflexivity.
    + destruct (Store.upsert id d ds) as [r b]. simpl in *.
      rewrite matches_id, E. exact IH.
Qed.

(** An identifier that is not in use leads to an insert. *)
Lemma upsert_unused (id : value) (d : Store.doc) (ds : list Store.doc) :
  Store.find_one {["_id" := id]} ds = None ->
  (Store.upsert id d ds).2 = false.
Proof.
  unfold Store.find_one.
  induction ds as [|d' ds IH]; simpl; [reflexivity|].
  rewrite matches_id. destruct (Store.has_id id d') eqn:E; [discriminate|].
  intros H. destruct (Store.upsert id d ds) as [r b]. simpl in *. auto.
Qed.

(** ** Calls that leave the object they coerce as it is *)

Lemma lookup_write_ne (l l' : loc) (k : string) (v : value)
    (h : gmap loc object) :
  l' <> l -> write l k v h !! l' = h !! l'.
Proof.
  intros Hne. unfold write. destruct (h !! l); [|reflexivity].
  apply lookup_insert_ne. congruence.
Qed.

Lemma fix_heap_unchanged (l : loc) (h : gmap loc object) (v : value) :
  read h l "_id" = Some v -> coerce_id v = v -> fix_heap l h = h.
Proof.
  intros Hv Hc. unfold fix_heap. rewrite Hv.
  destruct v; try reflexivity.
  simpl in Hc. destruct (test_hex24 s); [discriminate | reflexivity].
Qed.

(** [save(record, callback)] for a record whose [_id] needs no coercion:
    the driver receives the record as the caller made it. *)
Lemma save_plain_run (lc lr : loc) (c : nat) (cb v : value)
    (h : gmap loc object) (n : nat) (t : list event) :
  read h lc "_coll" = Some (VNative c) ->
  read h lr "_id" = Some v -> coerce_id v = v ->
  exists lo h1,
    Collection_save (VRef lc) [VRef lr; cb] (State h n t) =
    (Ret VUndefined,
     State h1 (S n)
       (t ++ [EvCall (VNative c) "save" [VRef lr; VRef lo; cb] (VNative n)
                h1])) /\
    h1 !! lr = h !! lr /\
    (forall l k, alive h l -> k <> "safe" -> read h1 l k = read h l k).
Proof.
  intros Hc Hv Hco.
  assert (Hal : alive h lr) by (eapply read_alive; exact Hv).
  set (lo := fresh (dom h)).
  set (hn := <[lo := Object KPlain ∅]> h).
  assert (Hne : lr <> lo) by (apply alive_ne_fresh; exact Hal).
  assert (Hnal : alive hn lr) by (apply alive_insert; auto).
  assert (Hno : alive hn lo) by (apply alive_insert; auto).
  assert (Hfix : fix_heap lr (write lo "safe" (VBool true) hn)
                 = write lo "safe" (VBool true) hn).
  { apply (fix_heap_unchanged _ _ v); [|exact Hco].
    rewrite read_write_ne by discriminate.
    unfold hn, lo. rewrite read_alloc_ne by exact Hal. exact Hv. }
  exists lo, (write lo "safe" (VBool true) hn).
  split; [|split].
  - change (Collection_save (VRef lc) [VRef lr; cb] (State h n t))
      with (delegate true "save" (VRef lc) (VRef lr) (VRef lo)
              [VRef lr; VRef lo; cb] (fun _ => ret VUndefined)
              (State hn n t)).
    rewrite (delegate_run true "save" lc lr c); [| exact Hnal | eauto |].
    + unfold delegated_heap. rewrite Hfix. reflexivity.
    + unfold hn, lo. rewrite read_alloc_ne by (eapply read_alive; exact Hc).
      exact Hc.
  - rewrite lookup_write_ne by exact Hne.
    unfold hn. apply lookup_insert_ne. congruence.
  - intros l k Hl Hk. rewrite read_write_ne by exact Hk.
    unfold hn, lo. apply read_alloc_ne. exact Hl.
Qed.

(** [findOne(query, callback)] for a query whose [_id] needs no coercion. *)
Lemma findOne_plain_run (lc lq : loc) (c : nat) (cb v : value)
    (h : gmap loc object) (n : nat) (t : list event) :
  read h lc "_coll" = Some (VNative c) ->
  read h lq "_id" = Some v -> coerce_id v = v ->
  exists lo h1,
    Collection_findOne (VRef lc) [VRef lq; cb] (State h n t) =
    (Ret VUndefined,
     State h1 (S n)
       (t ++ [EvCall (VNative c) "findOne" [VRef lq; VRef lo; cb]
                (VNative n) h1])) /\
    h1 !! lq = h !! lq.
Proof.
  intros Hc Hv Hco.
  assert (Hal : alive h lq) by (eapply read_alive; exact Hv).
  set (lo := fresh (dom h)).
  set (hn := <[lo := Object KPlain ∅]> h).
  assert (Hne : lq <> lo) by (apply alive_ne_fresh; exact Hal).
  assert (Hnal : alive hn lq) by (apply alive_insert; auto).
  assert (Hfix : fix_heap lq hn = hn).
  { apply (fix_heap_unchanged _ _ v); [|exact Hco].
    unfold hn, lo. rewrite read_alloc_ne by exact Hal. exact Hv. }
  exists lo, hn.
  split.
  - change (Collection_findOne (VRef lc) [VRef lq; cb] (State h n t))
      with (delegate false "findOne" (VRef lc) (VRef lq) (VRef lo)
              [VRef lq; VRef lo; cb] (fun _ => ret VUndefined)
              (State hn n t)).
    rewrite (delegate_run false "findOne" lc lq c);
      [| exact Hnal | discriminate |].
    + unfold delegated_heap. rewrite Hfix. reflexivity.
    + unfold hn, lo. rewrite read_alloc_ne by (eapply read_alive; exact Hc).
      exact Hc.
  - unfold hn. apply lookup_insert_ne. congruence.
Qed.

(** The store's answer to the [save] of a record without [_id], when the
    identifier it generates is not in use: the record is added under that
    identifier and handed to the callback. *)
Lemma serve_save_insert (recv r : value) (lr : loc) (opts : value) (f : nat)
    (hev : gmap loc object) (k : kind) (p : gmap string value)
    (st : Store.t) (h : gmap loc object) (n : nat) (t : list event) :
  hev !! lr = Some (Object k p) ->
  p !! "_id" = None ->
  Store.find_one {["_id" := Store.generated_id (Store.next_id st)]}
    (Store.docs st) = None ->
  let id := Store.generated_id (Store.next_id st) in
  let d := <["_id" := id]> p in
  Store.serve (EvCall recv "save" [VRef lr; opts; VFun f] r hev) st
    (State h n t) =
  (Ret (Store.Make (Store.upsert id d (Store.docs st)).1
          (S (Store.next_id st))),
   State (<[fresh (dom h) := Object KPlain d]> h) n
     (t ++ [EvInvoke f [VNull; VRef (fresh (dom h))]])).
Proof.
  intros Hr Hp Hfree id d.
  assert (Hins := upsert_unused id d (Store.docs st) Hfree).
  unfold Store.serve. rewrite Hr. cbn [last String.eqb Ascii.eqb Bool.eqb].
  cbn [oprops]. rewrite Hp. fold id. fold d.
  destruct (Store.upsert id d (Store.docs st)) as [ds b]. simpl in Hins.
  subst b. reflexivity.
Qed.

(** The store's answer to a [findOne] whose query matches a record. *)
Lemma serve_findOne_found (recv r : value) (lq : loc) (opts : value)
    (f : nat) (hev : gmap loc object) (k : kind) (q d : gmap string value)
    (st : Store.t) (h : gmap loc object) (n : nat) (t : list event) :
  hev !! lq = Some (Object k q) ->
  Store.find_one q (Store.docs st) = Some d ->
  Store.serve (EvCall recv "findOne" [VRef lq; opts; VFun f] r hev) st
    (State h n t) =
  (Ret st,
   State (<[fresh (dom h) := Object KPlain d]> h) n
     (t ++ [EvInvoke f [VNull; VRef (fresh (dom h))]])).
Proof.
  intros Hq Hd.
  unfold Store.serve. rewrite Hq. cbn [last String.eqb Ascii.eqb Bool.eqb].
  cbn [oprops]. rewrite Hd. reflexivity.
Qed.

(** ** Every operation as its argument test followed by the common tail *)

Lemma operation_delegate (m : method) (this criteria target : value)
    (options : option value) (callback : value) (h : gmap loc object)
    (n : nat) (t : list event) :
  Collection_prototype m this
    (operation_args m criteria target options callback) (State h n t) =
  let o := match options with
           | Some o => o
           | None => VRef (fresh (dom h))
           end in
  let hn := match options with
            | Some _ => h
            | None => <[fresh (dom h) := Object KPlain ∅]> h
            end in
  delegate (forces_safe m) (driver_method m) this target o
    (forwarded_args m criteria target o callback) (after_request m callback)
    (State hn n t).
Proof.
  destruct m, options; reflexivity.
Qed.

Lemma delegated_heap_safe_heap (safe : bool) (lt : loc) (options : value)
    (h : gmap loc object) :
  delegated_heap safe lt options h = fix_heap lt (safe_heap safe options h).
Proof. reflexivity. Qed.

(** ** [fixID] on what is not an object of the heap *)

Lemma fixID_nothing (v : value) (s : state) :
  is_nothing v = true ->
  fixID v s = (Throw "Cannot read property _id", s).
Proof. destruct v; try discriminate; reflexivity. Qed.

Lemma fixID_primitive (v : value) (s : state) :
  is_primitive v = true -> fixID v s = (Ret tt, s).
Proof. destruct v; try discriminate; reflexivity. Qed.

(** ** The common tail on other arguments *)

Lemma safe_run (safe : bool) (o : value) (h : gmap loc object) (n : nat)
    (t : list event) :
  (safe = true -> exists lo, o = VRef lo /\ alive h lo) ->
  (if safe then set_prop o "safe" (VBool true) else ret tt) (State h n t) =
  (Ret tt, State (safe_heap safe o h) n t).
Proof.
  intros Ho. destruct safe; [|reflexivity].
  destruct (Ho eq_refl) as (lo & -> & Hlo).
  rewrite set_prop_run by (assumption || reflexivity). reflexivity.
Qed.

Lemma delegate_nothing (safe : bool) (meth : string)
    (this target o : value) (fwd : list value) (k : value -> M value)
    (h : gmap loc object) (n : nat) (t : list event) :
  is_nothing target = true ->
  (safe = true -> exists lo, o = VRef lo /\ alive h lo) ->
  delegate safe meth this target o fwd k (State h n t) =
  (Throw "Cannot read property _id", State (safe_heap safe o h) n t).
Proof.
  intros Ht Ho. unfold delegate.
  erewrite bind_run by (apply safe_run; exact Ho).
  unfold bind. rewrite fixID_nothing by exact Ht. reflexivity.
Qed.

Lemma read_safe_heap_ne (safe : bool) (o : value) (l : loc) (k : string)
    (h : gmap loc object) :
  k <> "safe" -> read (safe_heap safe o h) l k = read h l k.
Proof.
  intros Hk. destruct safe; [|reflexivity].
  destruct o; try reflexivity. apply read_write_ne. exact Hk.
Qed.

Lemma delegate_primitive (safe : bool) (meth : string) (lc : loc) (c : nat)
    (target o : value) (fwd : list value) (k : value -> M value)
    (h : gmap loc object) (n : nat) (t : list event) :
  is_primitive target = true ->
  (safe = true -> exists lo, o = VRef lo /\ alive h lo) ->
  read h lc "_coll" = Some (VNative c) ->
  delegate safe meth (VRef lc) target o fwd k (State h n t) =
  let h' := safe_heap safe o h in
  k (VNative n)
    (State h' (S n) (t ++ [EvCall (VNative c) meth fwd (VNative n) h'])).
Proof.
  intros Ht Ho Hc. unfold delegate.
  erewrite bind_run by (apply safe_run; exact Ho).
  erewrite bind_run by (apply fixID_primitive; exact Ht).
  erewrite bind_run.
  2:{ apply get_prop_run. cbn [heap].
      rewrite read_safe_heap_ne by discriminate. exact Hc. }
  erewrite bind_run by apply call_native_run.
  reflexivity.
Qed.

(** What [after_request] adds: nothing, or the [toArray] request. *)
Lemma after_request_run (m : method) (cb r : value) (h : gmap loc object)
    (n : nat) (t : list event) :
  exists rest n',
    after_request m cb (VNative n) (State h (S n) t) =
    (Ret VUndefined, State h n' (t ++ rest)) /\
    (m <> Find -> rest = [] /\ n' = S n) /\
    (m = Find ->
     rest = [EvCall (VNative n) "toArray" [cb] (VNative (S n)) h]).
Proof.
  destruct m;
    try (exists [], (S n); rewrite app_nil_r;
         split; [reflexivity | split; [auto | discriminate]]).
  exists [EvCall (VNative n) "toArray" [cb] (VNative (S n)) h], (S (S n)).
  split; [reflexivity | split; [congruence | reflexivity]].
Qed.

(** The options of an operation, supplied or new. *)
Lemma options_usable (safe : bool) (options : option value)
    (h : gmap loc object) :
  (safe = true ->
   forall o, options = Some o -> exists lo, o = VRef lo /\ alive h lo) ->
  safe = true ->
  exists lo,
    match options with
    | Some o => o
    | None => VRef (fresh (dom h))
    end = VRef lo /\
    alive match options with
          | Some _ => h
          | None => <[fresh (dom h) := Object KPlain ∅]> h
          end lo.
Proof.
  intros Ho Hs. destruct options as [o|].
  - destruct (Ho Hs o eq_refl) as (lo & -> & Hlo). eauto.
  - exists (fresh (dom h)). split; [reflexivity|].
    apply alive_insert. auto.
Qed.

(** ** [find] and [findOne] in their three forms *)



Lemma lookup_fix_heap_ne (l l' : loc) (h : gmap loc object) :
  l' <> l -> fix_heap l h !! l' = h !! l'.
Proof.
  intros Hne. unfold fix_heap.
  destruct (read h l "_id") as [[]|]; try reflexivity.
  destruct (test_hex24 s); [apply lookup_write_ne; exact Hne | reflexivity].
Qed.

Lemma lookup_safe_heap_ne (safe : bool) (o : value) (l : loc)
    (h : gmap loc object) :
  o <> VRef l -> safe_heap safe o h !! l = h !! l.
Proof.
  intros Hne. destruct safe; [|reflexivity].
  destruct o; try reflexivity. apply lookup_write_ne. congruence.
Qed.


Lemma lookup_read (h h' : gmap loc object) (l : loc) (k : string) :
  h' !! l = h !! l -> read h' l k = read h l k.
Proof. unfold read. intros ->. reflexivity. Qed.

Lemma lookup_alive (h h' : gmap loc object) (l : loc) :
  h' !! l = h !! l -> alive h l -> alive h' l.
Proof. unfold alive. intros ->. auto. Qed.

(** ** Handles *)

Lemma db_handle_read (h : gmap loc object) (db conn : value) :
  is_db_handle h db conn ->
  exists l, db = VRef l /\ read h l "_db" = Some conn.
Proof.
  intros (l & ps & -> & Hl & Hp). exists l. split; [reflexivity|].
  unfold read. rewrite Hl. cbn. unfold obj_get. cbn. rewrite Hp. reflexivity.
Qed.

Lemma collection_handle_read (h : gmap loc object) (hd name coll : value) :
  is_collection_handle h hd name coll ->
  exists l, hd = VRef l /\ read h l "_coll" = Some coll /\
            read h l "name" = Some name.
Proof.
  intros (l & ps & -> & Hl & Hc & Hn). exists l. split; [reflexivity|].
  unfold read. rewrite Hl. cbn. unfold obj_get. cbn. rewrite Hc, Hn.
  split; reflexivity.
Qed.

Lemma close_run (ld : loc) (d : nat) (args : list value)
    (h : gmap loc object) (n : nat) (t : list event) :
  read h ld "_db" = Some (VNative d) ->
  DB_close (VRef ld) args (State h n t) =
  (Ret VUndefined,
   State h (S n)
     (t ++ [EvCall (VNative d) "close"
              (if (List.length args =? 1)%nat then [arg 0 args]
               else [arg 0 args; arg 1 args])
              (VNative n) h])).
Proof.
  intros Hd. unfold DB_close.
  erewrite bind_run by (apply get_prop_run; exact Hd).
  destruct (List.length args =? 1)%nat; reflexivity.
Qed.

(** The continuation of [getCollection] on what is not a list of indexes. *)
Lemma collection_not_index_list (name v cb err coll : value) (s : state) :
  truthy err = false ->
  not_index_list (heap s) v ->
  exists msg,
    call (VCollectionCb name v cb) [err; coll] s = (Throw msg, s).
Proof.
  intros He Hv. cbn [call]. unfold collection_body, arg. cbn [nth].
  rewrite He. destruct v; try contradiction.
  - eexists. reflexivity.
  - eexists. reflexivity.
  - eexists. reflexivity.
  - destruct s0 as [|a s0]; [contradiction Hv; reflexivity|].
    eexists. reflexivity.
  - destruct Hv as (k & ps & Hl & Hk & Hlen & Hfe).
    exists "forEach is not a function".
    assert (Hget : get_prop (VRef l) "length" s = (Ret VUndefined, s)).
    { apply get_prop_run. unfold read. rewrite Hl. cbn.
      unfold obj_get. cbn. rewrite Hlen.
      destruct k; try reflexivity. exfalso. eapply Hk. reflexivity. }
    erewrite bind_run.
    2:{ erewrite bind_run by exact Hget. reflexivity. }
    cbv iota. unfold bind, for_each. rewrite Hl.
    destruct k; try (rewrite Hfe; reflexivity).
    exfalso. eapply Hk. reflexivity.
Qed.

(** ** The regular expression and the case of letters *)

Lemma hex_class_i_upcase (c c' : ascii) :
  upcase c = upcase c' -> hex_class_i c = hex_class_i c'.
Proof. unfold hex_class_i. intros ->. reflexivity. Qed.

Lemma same_up_to_case_empty (s : string) :
  same_up_to_case EmptyString s -> s = EmptyString.
Proof.
  unfold same_up_to_case. destruct s; [reflexivity|].
  simpl. intros H. inversion H.
Qed.

Lemma match_hex_n_case (n : nat) (s s' : string) :
  same_up_to_case s s' ->
  match match_hex_n n s, match_hex_n n s' with
  | Some r, Some r' => same_up_to_case r r'
  | None, None => True
  | _, _ => False
  end.
Proof.
  revert s s'. induction n as [|n IH]; intros s s' H; simpl; [exact H|].
  unfold same_up_to_case in H.
  destruct s as [|a s], s' as [|a' s']; simpl in H; inversion H; subst;
    [exact I|].
  rewrite (hex_class_i_upcase a a') by assumption.
  destruct (hex_class_i a'); [|exact I].
  apply IH. assumption.
Qed.

(** ** The [safe] flag, field by field *)

Lemma read_safe_heap_other (safe : bool) (o : value) (l : loc) (k : string)
    (h : gmap loc object) :
  ~ (o = VRef l /\ k = "safe") ->
  read (safe_heap safe o h) l k = read h l k.
Proof.
  intros H. destruct (decide (k = "safe")) as [->|Hk].
  - apply lookup_read, lookup_safe_heap_ne. intros E. apply H. auto.
  - apply read_safe_heap_ne. exact Hk.
Qed.

Lemma read_safe_heap_safe (lo : loc) (h : gmap loc object) :
  alive h lo ->
  read (safe_heap true (VRef lo) h) lo "safe" = Some (VBool true).
Proof.
  intros Hlo. cbn [safe_heap].
  rewrite read_write by (assumption || reflexivity).
  destruct (decide _) as [_|Hd]; [reflexivity | exfalso; apply Hd; auto].
Qed.

(** * The claims *)

(** C1.  For every query or record passed to find, findOne, save, update
    (the record argument), delete or count, the [_id] that the driver
    receives is the native ObjectID built from the hexadecimal string
    exactly when the [_id] is a string of exactly 24 hexadecimal characters,
    in either case; any other [_id], of any type or shape, is forwarded
    unchanged.  [v0] is the [_id] before the call ([undefined] when the
    object has none), [h] is the heap the driver sees. *)
Theorem C1_id_forwarded_coerced (m : method) (lt lc : loc) (c : nat)
    (args : list value) (s : state) (v0 : value) :
  call_shape (heap s) m lt args ->
  read (heap s) lc "_coll" = Some (VNative c) ->
  read (heap s) lt "_id" = Some v0 ->
  exists s' fwd r h rest,
    Collection_prototype m (VRef lc) args s = (Ret VUndefined, s') /\
    trace s' =
      (trace s ++ EvCall (VNative c) (driver_method m) fwd r h :: rest)%list /\
    nth (target_index m) fwd VUndefined = VRef lt /\
    (forall hex, v0 = VStr hex -> hex24 hex ->
                 read h lt "_id" = Some (VObjectID hex)) /\
    ((forall hex, v0 = VStr hex -> ~ hex24 hex) ->
     read h lt "_id" = Some v0).
Proof.
  intros Hs Hc Hv. destruct s as [h n t]. simpl in *.
  destruct (method_run m lt args lc c h n t Hs (read_alive _ _ _ _ Hv) Hc)
    as (h0 & fwd & rest & n' & Hrun & Htgt & Hkeep & _ & _ & _).
  exists (State (fix_heap lt h0) n'
            (t ++ EvCall (VNative c) (driver_method m) fwd (VNative n)
                    (fix_heap lt h0) :: rest)),
    fwd, (VNative n), (fix_heap lt h0), rest.
  assert (Hid : read (fix_heap lt h0) lt "_id" = Some (coerce_id v0)).
  { rewrite read_fix_heap.
    destruct (decide _) as [_|Hd]; [|exfalso; apply Hd; auto].
    rewrite Hkeep by (discriminate || eapply read_alive; exact Hv).
    rewrite Hv. reflexivity. }
  repeat split; try assumption.
  - intros hex -> Hh. rewrite Hid, coerce_id_hex by assumption. reflexivity.
  - intros Hn. rewrite Hid, coerce_id_other by assumption. reflexivity.
Qed.

Lemma C1_id_forwarded_coerced_witness :
  exists s' fwd r h rest,
    Collection_prototype Save (VRef 1) [VRef 0; VFun 0] example_state
      = (Ret VUndefined, s') /\
    trace s' =
      (trace example_state
       ++ EvCall (VNative 7) (driver_method Save) fwd r h :: rest)%list /\
    nth (target_index Save) fwd VUndefined = VRef 0 /\
    (forall hex, VStr example_hex = VStr hex -> hex24 hex ->
                 read h 0 "_id" = Some (VObjectID hex)) /\
    ((forall hex, VStr example_hex = VStr hex -> ~ hex24 hex) ->
     read h 0 "_id" = Some (VStr example_hex)).
Proof.
  apply (C1_id_forwarded_coerced Save 0 1 7
           [VRef 0; VFun 0] example_state (VStr example_hex)).
  - apply save_2.
  - vm_compute. reflexivity.
  - vm_compute. reflexivity.
Defined.

(** C9.  The coercion is done in place, on the caller's own object: after a
    call of find, findOne, save, update, delete or count whose query or
    record carried a 24-character hexadecimal string as [_id], that same
    object holds the native ObjectID in its [_id] field. *)
Theorem C9_id_coerced_in_place (m : method) (lt lc : loc) (c : nat)
    (args : list value) (s : state) (hex : string) :
  call_shape (heap s) m lt args ->
  read (heap s) lc "_coll" = Some (VNative c) ->
  read (heap s) lt "_id" = Some (VStr hex) ->
  hex24 hex ->
  exists s',
    Collection_prototype m (VRef lc) args s = (Ret VUndefined, s') /\
    read (heap s') lt "_id" = Some (VObjectID hex).
Proof.
  intros Hs Hc Hv Hh. destruct s as [h n t]. simpl in *.
  destruct (method_run m lt args lc c h n t Hs (read_alive _ _ _ _ Hv) Hc)
    as (h0 & fwd & rest & n' & Hrun & _ & Hkeep & _ & _ & _).
  eexists. split; [exact Hrun|]. simpl.
  rewrite read_fix_heap.
  destruct (decide _) as [_|Hd]; [|exfalso; apply Hd; auto].
  rewrite Hkeep by (discriminate || eapply read_alive; exact Hv).
  rewrite Hv. simpl. apply test_hex24_spec in Hh. rewrite Hh. reflexivity.
Qed.

Lemma C9_id_coerced_in_place_witness :
  exists s',
    Collection_prototype Delete (VRef 1) [VRef 0; VFun 0]
      example_state = (Ret VUndefined, s') /\
    read (heap s') 0 "_id" = Some (VObjectID example_hex).
Proof.
  apply (C9_id_coerced_in_place Delete 0 1 7
           [VRef 0; VFun 0] example_state example_hex).
  - apply delete_2.
  - vm_compute. reflexivity.
  - vm_compute. reflexivity.
  - apply test_hex24_spec. vm_compute. reflexivity.
Defined.

(** C5.  For every call of save, update or delete, whether or not the
    caller supplies an options argument and whatever it contains, the
    options object handed to the driver has [safe] set to [true]. *)
Theorem C5_safe_forced (m : method) (lt lc : loc) (c : nat)
    (args : list value) (s : state) :
  m = Save \/ m = Update \/ m = Delete ->
  call_shape (heap s) m lt args ->
  alive (heap s) lt ->
  read (heap s) lc "_coll" = Some (VNative c) ->
  exists s' fwd r h lo,
    Collection_prototype m (VRef lc) args s = (Ret VUndefined, s') /\
    trace s' =
      (trace s ++ [EvCall (VNative c) (driver_method m) fwd r h])%list /\
    nth (options_index m) fwd VUndefined = VRef lo /\
    read h lo "safe" = Some (VBool true).
Proof.
  intros Hm Hs Ht Hc. destruct s as [h n t]. simpl in *.
  destruct (method_run m lt args lc c h n t Hs Ht Hc)
    as (h0 & fwd & rest & n' & Hrun & _ & _ & _ & Hsafe & _).
  destruct Hsafe as (-> & lo & Hlo & Hrd).
  { destruct Hm as [->|[->| ->]]; reflexivity. }
  exists (State (fix_heap lt h0) n'
            (t ++ [EvCall (VNative c) (driver_method m) fwd (VNative n)
                     (fix_heap lt h0)])),
    fwd, (VNative n), (fix_heap lt h0), lo.
  repeat split; try assumption.
  rewrite read_fix_heap_ne by discriminate. exact Hrd.
Qed.

Lemma C5_safe_forced_witness :
  exists s' fwd r h lo,
    Collection_prototype Update (VRef 1)
      [VRef 0; VRef 5; VRef 5; VFun 0] example_state
      = (Ret VUndefined, s') /\
    trace s' =
      (trace example_state
       ++ [EvCall (VNative 7) (driver_method Update) fwd r h])%list /\
    nth (options_index Update) fwd VUndefined = VRef lo /\
    read h lo "safe" = Some (VBool true).
Proof.
  apply (C5_safe_forced Update 5 1 7
           [VRef 0; VRef 5; VRef 5; VFun 0] example_state).
  - right. left. reflexivity.
  - apply update_4. vm_compute. eauto.
  - vm_compute. eauto.
  - vm_compute. reflexivity.
Defined.

(** C10, as stated: for every call of update, a 24-character hexadecimal
    string [_id] inside criteria reaches the driver as the raw string.  It
    fails when criteria and record are the same object: [fixID(record)]
    then rewrites the [_id] that criteria holds. *)
Lemma C10_criteria_raw_counterexample :
  ~ (forall (lcrit lr lc : loc) (c : nat) (args : list value) (s : state)
            (hex : string),
        call_shape (heap s) Update lr args ->
        nth 0 args VUndefined = VRef lcrit ->
        alive (heap s) lr ->
        read (heap s) lc "_coll" = Some (VNative c) ->
        read (heap s) lcrit "_id" = Some (VStr hex) ->
        hex24 hex ->
        exists s' fwd r h,
          Collection_update (VRef lc) args s = (Ret VUndefined, s') /\
          trace s' = (trace s ++ [EvCall (VNative c) "update" fwd r h])%list /\
          nth 0 fwd VUndefined = VRef lcrit /\
          read h lcrit "_id" = Some (VStr hex)).
Proof.
  intros H.
  destruct (H 0 0 1 7 [VRef 0; VRef 0; VFun 0]
              example_state example_hex)
    as (s' & fwd & r & h & Hrun & Htr & _ & Hrd).
  - apply update_3.
  - reflexivity.
  - vm_compute. eauto.
  - vm_compute. reflexivity.
  - vm_compute. reflexivity.
  - apply test_hex24_spec. vm_compute. reflexivity.
  - vm_compute in Hrun. injection Hrun as <-. simpl in Htr.
    injection Htr as _ _ <-. vm_compute in Hrd. discriminate Hrd.
Qed.

(** C10, amended.  update applies [fixID] to the record only: when
    criteria is an object other than the record, its [_id] reaches the
    driver as it was, a 24-character hexadecimal string included; when
    criteria and record are one object, it reaches the driver coerced. *)
Theorem C10_criteria_id_forwarded (lcrit lr lc : loc) (c : nat)
    (args : list value) (s : state) (v : value) :
  call_shape (heap s) Update lr args ->
  nth 0 args VUndefined = VRef lcrit ->
  alive (heap s) lr ->
  read (heap s) lc "_coll" = Some (VNative c) ->
  read (heap s) lcrit "_id" = Some v ->
  exists s' fwd r h,
    Collection_update (VRef lc) args s = (Ret VUndefined, s') /\
    trace s' = (trace s ++ [EvCall (VNative c) "update" fwd r h])%list /\
    nth 0 fwd VUndefined = VRef lcrit /\
    read h lcrit "_id" =
      Some (if decide (lcrit = lr) then coerce_id v else v).
Proof.
  intros Hs Hcr Ht Hc Hv. destruct s as [h n t]. simpl in *.
  destruct (method_run Update lr args lc c h n t Hs Ht Hc)
    as (h0 & fwd & rest & n' & Hrun & _ & Hkeep & _ & Hsafe & Hfst).
  destruct (Hsafe eq_refl) as (-> & _).
  exists (State (fix_heap lr h0) n'
            (t ++ [EvCall (VNative c) "update" fwd (VNative n)
                     (fix_heap lr h0)])),
    fwd, (VNative n), (fix_heap lr h0).
  repeat split.
  - exact Hrun.
  - rewrite (Hfst eq_refl). exact Hcr.
  - rewrite read_fix_heap.
    assert (Hal : alive h lcrit) by (eapply read_alive; exact Hv).
    destruct (decide (lcrit = lr)) as [<-|Hne].
    + destruct (decide _) as [_|Hd]; [|exfalso; apply Hd; auto].
      rewrite Hkeep by (discriminate || assumption). rewrite Hv. reflexivity.
    + destruct (decide _) as [[Hd _]|_]; [congruence|].
      rewrite Hkeep by (discriminate || assumption). exact Hv.
Qed.

Lemma C10_criteria_id_forwarded_witness :
  exists s' fwd r h,
    Collection_update (VRef 1) [VRef 0; VRef 5; VFun 0]
      example_state = (Ret VUndefined, s') /\
    trace s' =
      (trace example_state ++ [EvCall (VNative 7) "update" fwd r h])%list /\
    nth 0 fwd VUndefined = VRef 0 /\
    read h 0 "_id" =
      Some (if decide (0 = 5) then coerce_id (VStr example_hex)
            else VStr example_hex).
Proof.
  apply (C10_criteria_id_forwarded 0 5 1 7
           [VRef 0; VRef 5; VFun 0] example_state
           (VStr example_hex)).
  - apply update_3.
  - reflexivity.
  - vm_compute. eauto.
  - vm_compute. reflexivity.
  - vm_compute. reflexivity.
Defined.

(** C4, at the call [count(callback)].  The driver's [count] receives the
    caller's function in the place of the query, a new options object with
    [safe] set, and [undefined] in the place of the callback. *)
Theorem C4_count_callback_only (f : nat) :
  exists h lo,
    Collection_count (VRef 1) [VFun f] example_state =
    (Ret VUndefined,
     State h 11
       [EvCall (VNative 7) "count" [VFun f; VRef lo; VUndefined]
          (VNative 10) h]) /\
    read h lo "safe" = Some (VBool true).
Proof.
  eexists. eexists. split.
  - vm_compute. reflexivity.
  - vm_compute. reflexivity.
Qed.

(** C2, at the call [connect(callback)].  The defaults are applied (host
    [localhost], port 27017, an otherwise empty configuration), but the
    only argument is not kept as the completion callback: the continuation
    handed to [open] closes over [undefined], and when the driver reports
    an open connection the call of that [undefined] throws, so that the
    caller's function [f] is never invoked. *)
Theorem C2_connect_callback_only (f : nat) (conn : value) (s : state) :
  exists s1 s2 lo dbc r,
    connect [VFun f] s = (Ret VUndefined, s1) /\
    trace s1 =
      (trace s
       ++ [EvNew "Server" [VStr "localhost"; VNum 27017; VRef lo]
             (VNative (natives s)) (heap s1);
           EvNew "Db" [VUndefined; VNative (natives s); VRef lo] dbc
             (heap s1);
           EvCall dbc "open" [VOpenCb VUndefined] r (heap s1)])%list /\
    call (VOpenCb VUndefined) [VNull; conn] s1 =
      (Throw "callback is not a function", s2) /\
    trace s2 = trace s1.
Proof.
  destruct s as [h n t].
  destruct (connect_single_run (VFun f) h n t) as (lo & h1 & Hrun & _).
  match type of Hrun with _ = (_, State _ ?n1 ?t1) =>
    destruct (open_undefined_success VNull conn h1 n1 t1 eq_refl)
      as (h2 & Hcall);
    exists (State h1 n1 t1), (State h2 n1 t1)
  end.
  exists lo, (VNative (S n)), (VNative (S (S n))).
  repeat split; assumption.
Qed.

(** With both arguments, [connect] passes the driver's error, and nothing
    else, to the caller's function. *)
Lemma connect_error_forwarded (lo : loc) (f : nat) (err conn : value)
    (s : state) :
  alive (heap s) lo -> truthy err = true ->
  exists s1 dbc r,
    connect [VRef lo; VFun f] s = (Ret VUndefined, s1) /\
    last (trace s1) = Some (EvCall dbc "open" [VOpenCb (VFun f)] r (heap s1)) /\
    call (VOpenCb (VFun f)) [err; conn] s1 =
      (Ret VUndefined,
       State (heap s1) (natives s1) (trace s1 ++ [EvInvoke f [err]])).
Proof.
  intros Hal He. destruct s as [h n t]. cbn [heap] in Hal.
  destruct (alive_read h lo "host" Hal) as [vh Hh].
  destruct (alive_read h lo "port" Hal) as [vp Hp].
  destruct (alive_read h lo "name" Hal) as [vn Hn].
  eexists. exists (VNative (S n)), (VNative (S (S n))).
  split; [apply (connect_run lo (VFun f) vh vp vn); assumption|].
  split.
  - cbn [trace heap]. rewrite last_app. reflexivity.
  - apply open_error. exact He.
Qed.

(** [getCollection] passes the driver's error, and nothing else, to the
    caller's function, with or without an index list. *)
Lemma getCollection_error_forwarded (ld : loc) (d f : nat)
    (name err coll : value) (indexes : option value) (s : state) :
  read (heap s) ld "_db" = Some (VNative d) -> truthy err = true ->
  exists s1 k r,
    DB_getCollection (VRef ld) (getCollection_args name indexes (VFun f)) s
      = (Ret VUndefined, s1) /\
    trace s1 =
      (trace s ++ [EvCall (VNative d) "collection" [name; k] r (heap s)])%list /\
    forall s2,
      call k [err; coll] s2 =
      (Ret VUndefined,
       State (heap s2) (natives s2) (trace s2 ++ [EvInvoke f [err]])).
Proof.
  intros Hd He. destruct s as [h n t]. cbn [heap] in Hd.
  eexists. exists (VCollectionCb name (default VNull indexes) (VFun f)),
    (VNative n).
  split; [apply (getCollection_run ld d); exact Hd|].
  split; [destruct indexes; reflexivity|].
  intros [h2 n2 t2]. apply collection_error. exact He.
Qed.



(** C3.  For every call of getCollection with a non-empty index list
    [es], once the driver has resolved the collection the continuation
    issues one [ensureIndex] request per entry and, in the same run, calls
    the caller's function with the collection handle: no answer to those
    requests is awaited.  The function handed to each request ignores its
    arguments, so an index error never reaches the caller's function. *)
Theorem C3_indexes_fire_and_forget (ld la : loc) (d c f : nat)
    (name err : value) (es : list value) (s s2 : state) :
  read (heap s) ld "_db" = Some (VNative d) ->
  truthy err = false ->
  index_list (heap s2) (Some (VRef la)) = Some es ->
  es <> [] ->
  exists s1 k r,
    DB_getCollection (VRef ld) [name; VRef la; VFun f] s
      = (Ret VUndefined, s1) /\
    trace s1 =
      (trace s ++ [EvCall (VNative d) "collection" [name; k] r (heap s)])%list /\
    exists s3 evs hd,
      call k [err; VNative c] s2 = (Ret VUndefined, s3) /\
      trace s3 = (trace s2 ++ evs ++ [EvInvoke f [VNull; hd]])%list /\
      Forall2 (is_ensure_index (VNative c) (heap s2)) es evs /\
      is_collection_handle (heap s3) hd name (VNative c) /\
      forall answer sx, call VNoop answer sx = (Ret VUndefined, sx).
Proof.
  intros Hd He Hes _. destruct s as [h n t]. destruct s2 as [h2 n2 t2].
  cbn [heap] in *.
  destruct (collection_success f name err c (Some (VRef la)) es h2 n2 t2
              He Hes) as (evs & hd & h' & n' & Hcall & Hall & Hh).
  eexists. eexists. exists (VNative n).
  split; [apply (getCollection_run ld d); exact Hd|].
  split; [reflexivity|].
  eexists. exists evs, hd.
  split; [exact Hcall|].
  repeat split; try assumption.
Qed.

Lemma C3_indexes_fire_and_forget_witness :
  exists s1 k r,
    DB_getCollection (VRef 2) [VStr "author"; VRef 3; VFun 0] example_state
      = (Ret VUndefined, s1) /\
    trace s1 =
      (trace example_state
       ++ [EvCall (VNative 3) "collection" [VStr "author"; k] r
             (heap example_state)])%list /\
    exists s3 evs hd,
      call k [VNull; VNative 7] example_state = (Ret VUndefined, s3) /\
      trace s3 =
        (trace example_state ++ evs ++ [EvInvoke 0 [VNull; hd]])%list /\
      Forall2 (is_ensure_index (VNative 7) (heap example_state))
        [VStr "_id"] evs /\
      is_collection_handle (heap s3) hd (VStr "author") (VNative 7) /\
      forall answer sx, call VNoop answer sx = (Ret VUndefined, sx).
Proof.
  apply (C3_indexes_fire_and_forget 2 3 3 7 0 (VStr "author") VNull
           [VStr "_id"] example_state example_state).
  - vm_compute. reflexivity.
  - reflexivity.
  - vm_compute. reflexivity.
  - discriminate.
Defined.

(** C7.  For every call of getCollection in which the index list is left
    out or empty, once the driver has resolved the collection the caller's
    function receives the collection handle, and that is all the
    continuation does: no [ensureIndex] request is issued. *)
Theorem C7_no_indexes_no_request (ld : loc) (d c f : nat)
    (name err : value) (indexes : option value) (s s2 : state) :
  read (heap s) ld "_db" = Some (VNative d) ->
  truthy err = false ->
  index_list (heap s2) indexes = Some [] ->
  exists s1 k r,
    DB_getCollection (VRef ld) (getCollection_args name indexes (VFun f)) s
      = (Ret VUndefined, s1) /\
    trace s1 =
      (trace s ++ [EvCall (VNative d) "collection" [name; k] r (heap s)])%list /\
    exists s3 hd,
      call k [err; VNative c] s2 = (Ret VUndefined, s3) /\
      trace s3 = (trace s2 ++ [EvInvoke f [VNull; hd]])%list /\
      is_collection_handle (heap s3) hd name (VNative c).
Proof.
  intros Hd He Hes. destruct s as [h n t]. destruct s2 as [h2 n2 t2].
  cbn [heap] in *.
  destruct (collection_success f name err c indexes [] h2 n2 t2 He Hes)
    as (evs & hd & h' & n' & Hcall & Hall & Hh).
  inversion Hall; subst.
  eexists. exists (VCollectionCb name (default VNull indexes) (VFun f)),
    (VNative n).
  split; [apply (getCollection_run ld d); exact Hd|].
  split; [destruct indexes; reflexivity|].
  eexists. exists hd.
  split; [exact Hcall | split; [reflexivity | exact Hh]].
Qed.

Lemma C7_no_indexes_no_request_witness :
  exists s1 k r,
    DB_getCollection (VRef 2)
      (getCollection_args (VStr "author") None (VFun 0)) example_state
      = (Ret VUndefined, s1) /\
    trace s1 =
      (trace example_state
       ++ [EvCall (VNative 3) "collection" [VStr "author"; k] r
             (heap example_state)])%list /\
    exists s3 hd,
      call k [VNull; VNative 7] example_state = (Ret VUndefined, s3) /\
      trace s3 = (trace example_state ++ [EvInvoke 0 [VNull; hd]])%list /\
      is_collection_handle (heap s3) hd (VStr "author") (VNative 7).
Proof.
  apply (C7_no_indexes_no_request 2 3 7 0 (VStr "author") VNull None
           example_state example_state).
  - vm_compute. reflexivity.
  - reflexivity.
  - reflexivity.
Defined.

(** C8.  For every record without an [_id] field, a successful save
    followed by a findOne whose query [_id] is the identifier returned by
    save retrieves a record equivalent to the saved one.  The store is the
    modelled one; the save is successful when the identifier that the store
    generates is not in use.  [s] is the state in which save is called,
    [s3] any later state in which the caller asks for the record with a
    query that holds the returned identifier. *)
Theorem C8_save_findOne_roundtrip (lc lr : loc) (c f1 f2 : nat) (k : kind)
    (p : gmap string value) (st : Store.t) (s : state) :
  read (heap s) lc "_coll" = Some (VNative c) ->
  heap s !! lr = Some (Object k p) ->
  p !! "_id" = None ->
  Store.find_one {["_id" := Store.generated_id (Store.next_id st)]}
    (Store.docs st) = None ->
  exists s1 ev1 st1 s2 saved id,
    Collection_save (VRef lc) [VRef lr; VFun f1] s = (Ret VUndefined, s1) /\
    last (trace s1) = Some ev1 /\
    Store.serve ev1 st s1 = (Ret st1, s2) /\
    trace s2 = (trace s1 ++ [EvInvoke f1 [VNull; VRef saved]])%list /\
    oprops <$> heap s2 !! saved = Some (<["_id" := id]> p) /\
    forall (lq : loc) (s3 : state),
      read (heap s3) lc "_coll" = Some (VNative c) ->
      heap s3 !! lq = Some (Object KPlain {["_id" := id]}) ->
      exists s4 ev2 st2 s5 found,
        Collection_findOne (VRef lc) [VRef lq; VFun f2] s3
          = (Ret VUndefined, s4) /\
        last (trace s4) = Some ev2 /\
        Store.serve ev2 st1 s4 = (Ret st2, s5) /\
        trace s5 = (trace s4 ++ [EvInvoke f2 [VNull; VRef found]])%list /\
        oprops <$> heap s5 !! found = oprops <$> heap s2 !! saved.
Proof.
  intros Hc Hr Hp Hfree. destruct s as [h n t]. cbn [heap] in *.
  set (id := Store.generated_id (Store.next_id st)).
  set (d := <["_id" := id]> p).
  assert (Hv : read h lr "_id" = Some VUndefined).
  { unfold read. rewrite Hr. simpl. unfold obj_get. simpl. rewrite Hp.
    destruct k; reflexivity. }
  destruct (save_plain_run lc lr c (VFun f1) VUndefined h n t Hc Hv eq_refl)
    as (lo & h1 & Hsave & Hsame & _).
  rewrite Hr in Hsame.
  eexists. eexists. eexists. eexists. exists (fresh (dom h1)), id.
  split; [exact Hsave|].
  split; [cbn [trace]; rewrite last_app; reflexivity|].
  split; [apply (serve_save_insert _ _ lr _ f1 h1 k p); assumption|].
  split; [reflexivity|].
  split; [cbn [heap]; rewrite lookup_insert_eq; reflexivity|].
  intros lq [h3 n3 t3] Hc3 Hq. cbn [heap] in *.
  assert (Hv3 : read h3 lq "_id" = Some id).
  { unfold read. rewrite Hq. reflexivity. }
  destruct (findOne_plain_run lc lq c (VFun f2) id h3 n3 t3 Hc3 Hv3 eq_refl)
    as (lo3 & h4 & Hfind & Hsame3).
  rewrite Hq in Hsame3.
  eexists. eexists. eexists. eexists. exists (fresh (dom h4)).
  split; [exact Hfind|].
  split; [cbn [trace]; rewrite last_app; reflexivity|].
  split.
  { apply (serve_findOne_found _ _ lq _ f2 h4 KPlain {["_id" := id]} d).
    - exact Hsame3.
    - cbn [Store.docs]. apply find_one_upsert. apply lookup_insert_eq. }
  split; [reflexivity|].
  cbn [heap]. rewrite !lookup_insert_eq. reflexivity.
Qed.

Lemma C8_save_findOne_roundtrip_witness :
  exists s1 ev1 st1 s2 saved id,
    Collection_save (VRef 1) [VRef 5; VFun 0] example_state
      = (Ret VUndefined, s1) /\
    last (trace s1) = Some ev1 /\
    Store.serve ev1 (Store.Make [] 0) s1 = (Ret st1, s2) /\
    trace s2 = (trace s1 ++ [EvInvoke 0 [VNull; VRef saved]])%list /\
    oprops <$> heap s2 !! saved
      = Some (<["_id" := id]> (<["name" := VStr "pvorb"]> ∅)) /\
    forall (lq : loc) (s3 : state),
      read (heap s3) 1 "_coll" = Some (VNative 7) ->
      heap s3 !! lq = Some (Object KPlain {["_id" := id]}) ->
      exists s4 ev2 st2 s5 found,
        Collection_findOne (VRef 1) [VRef lq; VFun 1] s3
          = (Ret VUndefined, s4) /\
        last (trace s4) = Some ev2 /\
        Store.serve ev2 st1 s4 = (Ret st2, s5) /\
        trace s5 = (trace s4 ++ [EvInvoke 1 [VNull; VRef found]])%list /\
        oprops <$> heap s5 !! found = oprops <$> heap s2 !! saved.
Proof.
  apply (C8_save_findOne_roundtrip 1 5 7 0 1 KPlain
           (<["name" := VStr "pvorb"]> ∅) (Store.Make [] 0) example_state).
  - vm_compute. reflexivity.
  - vm_compute. reflexivity.
  - vm_compute. reflexivity.
  - vm_compute. reflexivity.
Defined.

(** * Further properties of the module *)

(** ** The six operations on unusual arguments *)

(** X1.  An operation called with [null] or [undefined] in the place of its
    query or record throws a [TypeError] when [fixID] reads the [_id]:
    nothing is sent to the driver and no function is called.  By then the
    writing operations and [count] have already set [safe] to [true] on the
    options, the caller's own object when it gave one; no other field of
    any object has changed, and [find] and [findOne] have changed nothing
    at all. *)
Theorem X1_nothing_target_throws (m : method) (this criteria target : value)
    (options : option value) (callback : value) (s : state) :
  is_nothing target = true ->
  (forces_safe m = true ->
   forall o, options = Some o -> exists lo, o = VRef lo /\ alive (heap s) lo) ->
  exists s',
    Collection_prototype m this
      (operation_args m criteria target options callback) s =
    (Throw "Cannot read property _id", s') /\
    trace s' = trace s /\
    natives s' = natives s /\
    (forces_safe m = true ->
     exists lo, (forall o, options = Some o -> o = VRef lo) /\
                read (heap s') lo "safe" = Some (VBool true)) /\
    (forall l k, alive (heap s) l ->
                 ~ (forces_safe m = true /\ options = Some (VRef l) /\
                    k = "safe") ->
                 read (heap s') l k = read (heap s) l k) /\
    (forall l, alive (heap s) l ->
               forces_safe m = false \/ options <> Some (VRef l) ->
               heap s' !! l = heap s !! l).
Proof.
  intros Ht Ho. destruct s as [h n t]. cbn [heap trace natives] in *.
  rewrite operation_delegate. cbv zeta.
  set (o := match options with
            | Some o => o
            | None => VRef (fresh (dom h))
            end).
  set (hn := match options with
             | Some _ => h
             | None => <[fresh (dom h) := Object KPlain ∅]> h
             end).
  assert (Hkeep : forall l, alive h l -> hn !! l = h !! l).
  { intros l Hl. unfold hn. destruct options; [reflexivity|].
    apply lookup_insert_ne. intros E. apply (fresh_not_alive h).
    rewrite E. exact Hl. }
  assert (Hopt : forall l, alive h l -> o = VRef l -> options = Some (VRef l)).
  { intros l Hl. unfold o. destruct options as [o'|]; [congruence|].
    intros [= E]. exfalso. apply (fresh_not_alive h). rewrite E. exact Hl. }
  rewrite delegate_nothing;
    [| exact Ht | intros Hs; exact (options_usable _ options h Ho Hs)].
  eexists. split; [reflexivity|]. cbn [heap trace natives].
  split; [reflexivity|]. split; [reflexivity|].
  split; [|split].
  - intros Hs.
    destruct (options_usable _ options h Ho Hs) as (lo & Heq & Hlo).
    fold o in Heq. fold hn in Hlo.
    exists lo. split.
    + intros o' ->. exact Heq.
    + rewrite Hs, Heq. apply read_safe_heap_safe. exact Hlo.
  - intros l k Hl Hk.
    destruct (forces_safe m) eqn:Hs.
    + rewrite read_safe_heap_other; [apply lookup_read, Hkeep; exact Hl|].
      intros [Eo Ek]. apply Hk. auto.
    + cbn [safe_heap]. apply lookup_read, Hkeep. exact Hl.
  - intros l Hl Hcase.
    destruct (forces_safe m) eqn:Hs.
    + rewrite lookup_safe_heap_ne; [apply Hkeep; exact Hl|].
      intros Eo. destruct Hcase as [Hf|Hne]; [discriminate|].
      apply Hne, Hopt; assumption.
    + cbn [safe_heap]. apply Hkeep. exact Hl.
Qed.

Lemma X1_nothing_target_throws_witness :
  exists s',
    Collection_prototype Delete (VRef 1)
      (operation_args Delete VUndefined VNull (Some (VRef 5)) (VFun 0))
      example_state =
    (Throw "Cannot read property _id", s') /\
    trace s' = trace example_state /\
    natives s' = natives example_state /\
    (forces_safe Delete = true ->
     exists lo, (forall o, Some (VRef 5) = Some o -> o = VRef lo) /\
                read (heap s') lo "safe" = Some (VBool true)) /\
    (forall l k, alive (heap example_state) l ->
                 ~ (forces_safe Delete = true /\
                    Some (VRef 5) = Some (VRef l) /\ k = "safe") ->
                 read (heap s') l k = read (heap example_state) l k) /\
    (forall l, alive (heap example_state) l ->
               forces_safe Delete = false \/ Some (VRef 5) <> Some (VRef l) ->
               heap s' !! l = heap example_state !! l).
Proof.
  apply (X1_nothing_target_throws Delete (VRef 1) VUndefined VNull
           (Some (VRef 5)) (VFun 0) example_state).
  - reflexivity.
  - intros _ o [= <-]. exists 5. split; [reflexivity | vm_compute; eauto].
Defined.

(** X2.  A query that is a boolean, a number or a string (the documentation
    of [find] allows a string) is handed to the driver as it is: [fixID]
    finds no [_id] on it and does not throw.  Apart from [safe], no field of
    any object changes. *)
Theorem X2_primitive_target_forwarded (m : method) (lc : loc) (c : nat)
    (criteria target : value) (options : option value) (callback : value)
    (s : state) :
  is_primitive target = true ->
  (forces_safe m = true ->
   forall o, options = Some o -> exists lo, o = VRef lo /\ alive (heap s) lo) ->
  read (heap s) lc "_coll" = Some (VNative c) ->
  exists s' o r rest,
    Collection_prototype m (VRef lc)
      (operation_args m criteria target options callback) s =
    (Ret VUndefined, s') /\
    trace s' =
      (trace s
       ++ EvCall (VNative c) (driver_method m)
            (forwarded_args m criteria target o callback) r (heap s')
          :: rest)%list /\
    forall l k, alive (heap s) l -> k <> "safe" ->
                read (heap s') l k = read (heap s) l k.
Proof.
  intros Ht Ho Hc. destruct s as [h n t]. cbn [heap trace] in *.
  rewrite operation_delegate. cbv zeta.
  set (o := match options with
            | Some o => o
            | None => VRef (fresh (dom h))
            end).
  set (hn := match options with
             | Some _ => h
             | None => <[fresh (dom h) := Object KPlain ∅]> h
             end).
  assert (Hkeep : forall l k, alive h l -> read hn l k = read h l k).
  { intros l k Hl. unfold hn.
    destruct options; [reflexivity | apply read_alloc_ne; exact Hl]. }
  rewrite (delegate_primitive _ _ lc c);
    [| exact Ht
     | intros Hs; exact (options_usable _ options h Ho Hs)
     | rewrite Hkeep by (eapply read_alive; exact Hc); exact Hc].
  cbv zeta.
  destruct (after_request_run m callback (VNative n)
              (safe_heap (forces_safe m) o hn) n
              (t ++ [EvCall (VNative c) (driver_method m)
                       (forwarded_args m criteria target o callback)
                       (VNative n) (safe_heap (forces_safe m) o hn)]))
    as (rest & n' & Hrun & _).
  rewrite Hrun. eexists. exists o, (VNative n), rest.
  split; [reflexivity|]. cbn [heap trace].
  split; [rewrite <- app_assoc; reflexivity|].
  intros l k Hl Hk. rewrite read_safe_heap_ne by exact Hk.
  apply Hkeep. exact Hl.
Qed.

Lemma X2_primitive_target_forwarded_witness :
  exists s' o r rest,
    Collection_prototype Find (VRef 1)
      (operation_args Find VUndefined (VStr "pvorb") None (VFun 0))
      example_state =
    (Ret VUndefined, s') /\
    trace s' =
      (trace example_state
       ++ EvCall (VNative 7) (driver_method Find)
            (forwarded_args Find VUndefined (VStr "pvorb") o (VFun 0)) r
            (heap s')
          :: rest)%list /\
    forall l k, alive (heap example_state) l -> k <> "safe" ->
                read (heap s') l k = read (heap example_state) l k.
Proof.
  apply (X2_primitive_target_forwarded Find 1 7 VUndefined (VStr "pvorb")
           None (VFun 0) example_state).
  - reflexivity.
  - intros _ o [=].
  - vm_compute. reflexivity.
Defined.

(** X3.  [save], [update], [delete] and [count] assign [options.safe]
    before anything else.  Whenever the options they end up with are not an
    object, they throw a [TypeError] and leave everything as it was, the
    record not coerced and nothing sent to the driver.  That is so when the
    caller passes [undefined], [null], a boolean, a number or a string for
    the options, and when the call has too few arguments for a callback:
    [save(record)], [update(criteria, record)], [delete(query)],
    [count()]. *)
Theorem X3_options_not_object_throws (m : method) (this : value)
    (args : list value) (s : state) :
  forces_safe m = true ->
  makes_options m (List.length args) = false ->
  not_an_object (arg (options_index m) args) = true ->
  Collection_prototype m this args s = (Throw "Cannot set property safe", s).
Proof.
  intros Hm Hn Ho.
  destruct args as [|a [|b [|c [|d rest]]]];
    destruct m; try discriminate;
    unfold arg in Ho; cbn [options_index nth] in Ho;
    match type of Ho with
    | not_an_object ?o = true => destruct o; try discriminate
    end; reflexivity.
Qed.

Lemma X3_options_not_object_throws_witness :
  Collection_prototype Save (VRef 1) [VRef 0] example_state =
  (Throw "Cannot set property safe", example_state).
Proof.
  apply (X3_options_not_object_throws Save (VRef 1) [VRef 0] example_state);
    reflexivity.
Defined.

(** X4.  [save], [update], [delete] and [count], called on an object with
    or without options, send exactly one request: the arguments in the
    caller's order (criteria first for [update]), then the options, then
    the caller's callback.  The options are the caller's own object when
    given, a new object with no field but [safe] otherwise. *)
Theorem X4_write_forwarded (m : method) (lc lt : loc) (c : nat)
    (criteria : value) (options : option value) (callback : value)
    (s : state) :
  forces_safe m = true ->
  alive (heap s) lt ->
  (forall o, options = Some o -> exists lo, o = VRef lo /\ alive (heap s) lo) ->
  read (heap s) lc "_coll" = Some (VNative c) ->
  exists s' lo r,
    Collection_prototype m (VRef lc)
      (operation_args m criteria (VRef lt) options callback) s =
    (Ret VUndefined, s') /\
    trace s' =
      (trace s
       ++ [EvCall (VNative c) (driver_method m)
             (forwarded_args m criteria (VRef lt) (VRef lo) callback) r
             (heap s')])%list /\
    read (heap s') lo "safe" = Some (VBool true) /\
    (forall o, options = Some o -> o = VRef lo) /\
    (options = None ->
     ~ alive (heap s) lo /\
     forall k, k <> "safe" -> read (heap s') lo k = Some VUndefined).
Proof.
  intros Hm Ht Ho Hc. destruct s as [h n t]. cbn [heap trace] in *.
  rewrite operation_delegate. cbv zeta.
  set (hn := match options with
             | Some _ => h
             | None => <[fresh (dom h) := Object KPlain ∅]> h
             end).
  destruct (options_usable true options h (fun _ => Ho) eq_refl)
    as (lo & Heq & Hlo). fold hn in Hlo. rewrite Heq.
  assert (Hkeep : forall l k, alive h l -> read hn l k = read h l k).
  { intros l k Hl. unfold hn.
    destruct options; [reflexivity | apply read_alloc_ne; exact Hl]. }
  assert (Hnt : alive hn lt).
  { unfold hn. destruct options; [exact Ht | apply alive_insert; auto]. }
  rewrite (delegate_run _ _ lc lt c);
    [| exact Hnt | intros _; eauto
     | rewrite Hkeep by (eapply read_alive; exact Hc); exact Hc].
  cbv zeta. rewrite Hm.
  destruct (after_request_run m callback (VNative n)
              (delegated_heap true lt (VRef lo) hn) n
              (t ++ [EvCall (VNative c) (driver_method m)
                       (forwarded_args m criteria (VRef lt) (VRef lo)
                          callback)
                       (VNative n) (delegated_heap true lt (VRef lo) hn)]))
    as (rest & n' & Hrun & Hrest & _).
  destruct Hrest as [-> ->]; [destruct m; discriminate|].
  rewrite Hrun, app_nil_r. eexists. exists lo, (VNative n).
  split; [reflexivity|]. cbn [heap trace].
  split; [reflexivity|].
  unfold delegated_heap.
  split; [|split].
  - rewrite read_fix_heap_ne by discriminate.
    rewrite read_write by (assumption || reflexivity).
    destruct (decide _) as [_|Hd]; [reflexivity | exfalso; apply Hd; auto].
  - intros o ->. exact Heq.
  - intros ->. injection Heq as <-.
    split; [apply fresh_not_alive|].
    intros k Hk.
    assert (Hne : fresh (dom h) <> lt) by
      (intros E; apply (fresh_not_alive h); rewrite E; exact Ht).
    rewrite read_fix_heap.
    destruct (decide _) as [[Hd _]|_]; [congruence|].
    rewrite read_write_ne by exact Hk.
    unfold hn. rewrite read_insert.
    destruct (decide _) as [_|Hd]; [reflexivity | congruence].
Qed.

Lemma X4_write_forwarded_witness :
  exists s' lo r,
    Collection_prototype Count (VRef 1)
      (operation_args Count VUndefined (VRef 0) None (VFun 0)) example_state =
    (Ret VUndefined, s') /\
    trace s' =
      (trace example_state
       ++ [EvCall (VNative 7) (driver_method Count)
             (forwarded_args Count VUndefined (VRef 0) (VRef lo) (VFun 0)) r
             (heap s')])%list /\
    read (heap s') lo "safe" = Some (VBool true) /\
    (forall o, @None value = Some o -> o = VRef lo) /\
    (@None value = None ->
     ~ alive (heap example_state) lo /\
     forall k, k <> "safe" -> read (heap s') lo k = Some VUndefined).
Proof.
  apply (X4_write_forwarded Count 1 0 7 VUndefined None (VFun 0)
           example_state).
  - reflexivity.
  - vm_compute. eauto.
  - intros o [=].
  - vm_compute. reflexivity.
Defined.

(** ** [find] and [findOne] *)





(** ** What the writing operations leave alone *)

(** X7.  [save], [update], [delete] and [count] change two things at most:
    the [safe] field of the options and the [_id] field of the record or
    query, which becomes what [fixID] makes of it.  Every other field of
    every object keeps its value, the [safe] field of the record included
    when the record is not the options, and an object that is neither the
    record (query) nor the options is left as it was: the criteria of
    [update], the collection handle, whatever else the caller holds. *)
Theorem X7_write_frame (m : method) (lc lt : loc) (c : nat)
    (criteria : value) (options : option value) (callback : value)
    (s : state) :
  forces_safe m = true ->
  alive (heap s) lt ->
  (forall o, options = Some o -> exists lo, o = VRef lo /\ alive (heap s) lo) ->
  read (heap s) lc "_coll" = Some (VNative c) ->
  exists s',
    Collection_prototype m (VRef lc)
      (operation_args m criteria (VRef lt) options callback) s =
    (Ret VUndefined, s') /\
    read (heap s') lt "_id" = coerce_id <$> read (heap s) lt "_id" /\
    (forall l k, alive (heap s) l ->
                 ~ (l = lt /\ k = "_id") ->
                 ~ (options = Some (VRef l) /\ k = "safe") ->
                 read (heap s') l k = read (heap s) l k) /\
    (forall l, alive (heap s) l -> l <> lt -> options <> Some (VRef l) ->
               heap s' !! l = heap s !! l).
Proof.
  intros Hm Ht Ho Hc. destruct s as [h n t]. cbn [heap] in *.
  rewrite operation_delegate. cbv zeta.
  set (o := match options with
            | Some o => o
            | None => VRef (fresh (dom h))
            end).
  set (hn := match options with
             | Some _ => h
             | None => <[fresh (dom h) := Object KPlain ∅]> h
             end).
  assert (Hkeep : forall l, alive h l -> hn !! l = h !! l).
  { intros l Hl. unfold hn. destruct options; [reflexivity|].
    apply lookup_insert_ne. intros E. apply (fresh_not_alive h).
    rewrite E. exact Hl. }
  assert (Hopt : forall l, alive h l -> o = VRef l -> options = Some (VRef l)).
  { intros l Hl. unfold o. destruct options as [o'|]; [congruence|].
    intros [= E]. exfalso. apply (fresh_not_alive h). rewrite E. exact Hl. }
  rewrite (delegate_run _ _ lc lt c);
    [| eapply lookup_alive; [apply Hkeep|]; exact Ht
     | intros _; exact (options_usable true options h (fun _ => Ho) eq_refl)
     | erewrite lookup_read;
       [exact Hc | apply Hkeep; eapply read_alive; exact Hc]].
  cbv zeta.
  destruct (after_request_run m callback (VNative n)
              (delegated_heap (forces_safe m) lt o hn) n
              (t ++ [EvCall (VNative c) (driver_method m)
                       (forwarded_args m criteria (VRef lt) o callback)
                       (VNative n)
                       (delegated_heap (forces_safe m) lt o hn)]))
    as (rest & n' & Hrun & _).
  rewrite Hrun. eexists. split; [reflexivity|]. cbn [heap].
  rewrite delegated_heap_safe_heap.
  assert (Hother : forall l k, alive h l ->
                     ~ (options = Some (VRef l) /\ k = "safe") ->
                     read (safe_heap (forces_safe m) o hn) l k = read h l k).
  { intros l k Hl Hs.
    rewrite read_safe_heap_other; [apply lookup_read, Hkeep; exact Hl|].
    intros [Eo Ek]. apply Hs. split; [apply Hopt; assumption | exact Ek]. }
  split; [|split].
  - rewrite read_fix_heap.
    destruct (decide _) as [_|Hd]; [|exfalso; apply Hd; auto].
    rewrite Hother; [reflexivity | exact Ht |].
    intros [_ E]. discriminate E.
  - intros l k Hl Hid Hs. rewrite read_fix_heap.
    destruct (decide _) as [Hd|_]; [contradiction|].
    apply Hother; assumption.
  - intros l Hl Hne Hopt'.
    rewrite lookup_fix_heap_ne by exact Hne.
    rewrite lookup_safe_heap_ne; [apply Hkeep; exact Hl|].
    intros Eo. apply Hopt'. apply Hopt; assumption.
Qed.

Lemma X7_write_frame_witness :
  exists s',
    Collection_prototype Update (VRef 1)
      (operation_args Update (VRef 5) (VRef 0) None (VFun 0)) example_state =
    (Ret VUndefined, s') /\
    read (heap s') 0 "_id" = coerce_id <$> read (heap example_state) 0 "_id" /\
    (forall l k, alive (heap example_state) l ->
                 ~ (l = 0 /\ k = "_id") ->
                 ~ (@None value = Some (VRef l) /\ k = "safe") ->
                 read (heap s') l k = read (heap example_state) l k) /\
    (forall l, alive (heap example_state) l -> l <> 0 ->
               @None value <> Some (VRef l) ->
               heap s' !! l = heap example_state !! l).
Proof.
  apply (X7_write_frame Update 1 0 7 (VRef 5) None (VFun 0) example_state).
  - reflexivity.
  - vm_compute. eauto.
  - intros o [=].
  - vm_compute. reflexivity.
Defined.

(** X8.  A query or record can be used again.  Once an operation has
    coerced its 24-character hexadecimal [_id], every later operation on
    the same object, in the state the first one left, succeeds and hands the
    driver the same ObjectID: the coercion is done once and is stable. *)
Theorem X8_coerced_object_reusable (m1 m2 : method) (lt lc : loc) (c : nat)
    (args1 : list value) (s : state) (hex : string) :
  call_shape (heap s) m1 lt args1 ->
  read (heap s) lc "_coll" = Some (VNative c) ->
  read (heap s) lt "_id" = Some (VStr hex) ->
  hex24 hex ->
  exists s1,
    Collection_prototype m1 (VRef lc) args1 s = (Ret VUndefined, s1) /\
    forall args2,
      call_shape (heap s1) m2 lt args2 ->
      exists s2 fwd r h rest,
        Collection_prototype m2 (VRef lc) args2 s1 = (Ret VUndefined, s2) /\
        trace s2 =
          (trace s1
           ++ EvCall (VNative c) (driver_method m2) fwd r h :: rest)%list /\
        nth (target_index m2) fwd VUndefined = VRef lt /\
        read h lt "_id" = Some (VObjectID hex) /\
        read (heap s2) lt "_id" = Some (VObjectID hex).
Proof.
  intros Hs Hc Hv Hh. destruct s as [h n t]. cbn [heap] in *.
  assert (Hal : alive h lt) by (eapply read_alive; exact Hv).
  destruct (method_run m1 lt args1 lc c h n t Hs Hal Hc)
    as (h0 & fwd1 & rest1 & n1 & Hrun1 & _ & Hkeep1 & Hal1 & _ & _).
  eexists. split; [exact Hrun1|]. cbn [heap trace].
  assert (Hid1 : read (fix_heap lt h0) lt "_id" = Some (VObjectID hex)).
  { rewrite read_fix_heap.
    destruct (decide _) as [_|Hd]; [|exfalso; apply Hd; auto].
    rewrite Hkeep1 by (assumption || discriminate). rewrite Hv.
    cbn [fmap option_fmap option_map]. rewrite coerce_id_hex by exact Hh.
    reflexivity. }
  assert (Hc1 : read (fix_heap lt h0) lc "_coll" = Some (VNative c)).
  { rewrite read_fix_heap_ne by discriminate.
    rewrite Hkeep1 by (discriminate || eapply read_alive; exact Hc).
    exact Hc. }
  intros args2 Hs2.
  match type of Hrun1 with _ = (_, State _ _ ?t1) =>
    destruct (method_run m2 lt args2 lc c (fix_heap lt h0) n1 t1 Hs2
                (read_alive _ _ _ _ Hid1) Hc1)
      as (h2 & fwd & rest & n2 & Hrun2 & Htgt & Hkeep2 & _ & _ & _)
  end.
  assert (Hid2 : read (fix_heap lt h2) lt "_id" = Some (VObjectID hex)).
  { rewrite read_fix_heap.
    destruct (decide _) as [_|Hd]; [|exfalso; apply Hd; auto].
    rewrite Hkeep2 by (discriminate || eapply read_alive; exact Hid1).
    rewrite Hid1. reflexivity. }
  eexists. exists fwd, (VNative n1), (fix_heap lt h2), rest.
  split; [exact Hrun2|]. cbn [heap trace].
  repeat split; assumption.
Qed.

Lemma X8_coerced_object_reusable_witness :
  exists s1,
    Collection_prototype FindOne (VRef 1) [VRef 0; VFun 0] example_state =
    (Ret VUndefined, s1) /\
    forall args2,
      call_shape (heap s1) Delete 0 args2 ->
      exists s2 fwd r h rest,
        Collection_prototype Delete (VRef 1) args2 s1 = (Ret VUndefined, s2) /\
        trace s2 =
          (trace s1
           ++ EvCall (VNative 7) (driver_method Delete) fwd r h :: rest)%list /\
        nth (target_index Delete) fwd VUndefined = VRef 0 /\
        read h 0 "_id" = Some (VObjectID example_hex) /\
        read (heap s2) 0 "_id" = Some (VObjectID example_hex).
Proof.
  apply (X8_coerced_object_reusable FindOne Delete 0 1 7
           [VRef 0; VFun 0] example_state example_hex).
  - apply findOne_2.
  - vm_compute. reflexivity.
  - vm_compute. reflexivity.
  - apply test_hex24_spec. vm_compute. reflexivity.
Defined.

(** ** [connect] *)

(** X9.  [connect(options, callback)] normalises the caller's own options
    object in place and hands that same object to both constructors of the
    driver: [strict] becomes [false] and [safe] becomes [true] whatever
    they were, a host or port that is missing or falsy is replaced by
    [localhost] or 27017 in the server's arguments (the object keeps what it
    had), the database name is [options.name], and the function handed to
    [open] closes over the caller's callback.  No other object changes and
    no function is called. *)
Theorem X9_connect_normalises (lo : loc) (cb vh vp vn : value) (s : state) :
  read (heap s) lo "host" = Some vh ->
  read (heap s) lo "port" = Some vp ->
  read (heap s) lo "name" = Some vn ->
  exists s1 server dbc r,
    connect [VRef lo; cb] s = (Ret VUndefined, s1) /\
    trace s1 =
      (trace s
       ++ [EvNew "Server"
             [if truthy vh then vh else VStr "localhost";
              if truthy vp then vp else VNum 27017; VRef lo]
             server (heap s1);
           EvNew "Db" [vn; server; VRef lo] dbc (heap s1);
           EvCall dbc "open" [VOpenCb cb] r (heap s1)])%list /\
    read (heap s1) lo "strict" = Some (VBool false) /\
    read (heap s1) lo "safe" = Some (VBool true) /\
    (forall k, k <> "strict" -> k <> "safe" ->
               read (heap s1) lo k = read (heap s) lo k) /\
    (forall l, l <> lo -> heap s1 !! l = heap s !! l).
Proof.
  intros Hh Hp Hn. destruct s as [h n t]. cbn [heap trace] in *.
  assert (Hal : alive h lo) by (eapply read_alive; exact Hh).
  rewrite (connect_run lo cb vh vp vn) by assumption. cbv zeta.
  eexists. exists (VNative n), (VNative (S n)), (VNative (S (S n))).
  split; [reflexivity|]. cbn [heap trace].
  split; [reflexivity|].
  split; [|split; [|split]].
  - rewrite read_write_ne by discriminate.
    rewrite read_write by (assumption || reflexivity).
    destruct (decide _) as [_|Hd]; [reflexivity | exfalso; apply Hd; auto].
  - rewrite read_write by (reflexivity || apply alive_write; assumption).
    destruct (decide _) as [_|Hd]; [reflexivity | exfalso; apply Hd; auto].
  - intros k Hk1 Hk2. rewrite !read_write_ne by assumption. reflexivity.
  - intros l Hl. rewrite !lookup_write_ne by exact Hl. reflexivity.
Qed.

Lemma X9_connect_normalises_witness :
  exists s1 server dbc r,
    connect [VRef 5; VFun 0] example_state = (Ret VUndefined, s1) /\
    trace s1 =
      (trace example_state
       ++ [EvNew "Server"
             [if truthy VUndefined then VUndefined else VStr "localhost";
              if truthy VUndefined then VUndefined else VNum 27017; VRef 5]
             server (heap s1);
           EvNew "Db" [VStr "pvorb"; server; VRef 5] dbc (heap s1);
           EvCall dbc "open" [VOpenCb (VFun 0)] r (heap s1)])%list /\
    read (heap s1) 5 "strict" = Some (VBool false) /\
    read (heap s1) 5 "safe" = Some (VBool true) /\
    (forall k, k <> "strict" -> k <> "safe" ->
               read (heap s1) 5 k = read (heap example_state) 5 k) /\
    (forall l, l <> 5 -> heap s1 !! l = heap example_state !! l).
Proof.
  apply (X9_connect_normalises 5 (VFun 0) VUndefined VUndefined
           (VStr "pvorb") example_state).
  - vm_compute. reflexivity.
  - vm_compute. reflexivity.
  - vm_compute. reflexivity.
Defined.

(** X10.  The contract of [connect(options, callback)]: whatever the driver
    answers to [open], and whenever it does, the caller's function is called
    exactly once, with the error alone when there is one and with [null]
    and a new [DB] that wraps the connection otherwise.  In both cases the
    objects that exist when the driver answers are left as they are. *)
Theorem X10_connect_calls_back_once (lo : loc) (f : nat) (s : state) :
  alive (heap s) lo ->
  exists s1 k dbc r,
    connect [VRef lo; VFun f] s = (Ret VUndefined, s1) /\
    last (trace s1) = Some (EvCall dbc "open" [k] r (heap s1)) /\
    forall (err conn : value) (s2 : state),
      exists s3 answer,
        call k [err; conn] s2 = (Ret VUndefined, s3) /\
        trace s3 = (trace s2 ++ [EvInvoke f answer])%list /\
        (forall l, alive (heap s2) l -> heap s3 !! l = heap s2 !! l) /\
        (truthy err = true -> answer = [err] /\ heap s3 = heap s2) /\
        (truthy err = false ->
         exists db, answer = [VNull; db] /\ is_db_handle (heap s3) db conn).
Proof.
  intros Hal. destruct s as [h n t]. cbn [heap] in Hal.
  destruct (alive_read h lo "host" Hal) as [vh Hh].
  destruct (alive_read h lo "port" Hal) as [vp Hp].
  destruct (alive_read h lo "name" Hal) as [vn Hn].
  eexists. exists (VOpenCb (VFun f)), (VNative (S n)), (VNative (S (S n))).
  split; [apply (connect_run lo (VFun f) vh vp vn); assumption|].
  split; [cbn [trace heap]; rewrite last_app; reflexivity|].
  intros err conn [h2 n2 t2].
  destruct (truthy err) eqn:He.
  - eexists. exists [err].
    split; [apply open_error; exact He|]. cbn [heap trace].
    repeat split; try reflexivity. discriminate.
  - destruct (new_DB_run conn h2 n2 t2) as (l & h' & Hrun & Hdb & Hkeep).
    exists (State h' n2 (t2 ++ [EvInvoke f [VNull; VRef l]])),
      [VNull; VRef l].
    split.
    { cbn [call]. unfold open_body, arg. cbn [nth]. rewrite He.
      erewrite bind_run by exact Hrun. reflexivity. }
    cbn [heap trace].
    split; [reflexivity|].
    split; [exact Hkeep|].
    split; [discriminate|].
    intros _. exists (VRef l). split; [reflexivity | exact Hdb].
Qed.

Lemma X10_connect_calls_back_once_witness :
  exists s1 k dbc r,
    connect [VRef 5; VFun 0] example_state = (Ret VUndefined, s1) /\
    last (trace s1) = Some (EvCall dbc "open" [k] r (heap s1)) /\
    forall (err conn : value) (s2 : state),
      exists s3 answer,
        call k [err; conn] s2 = (Ret VUndefined, s3) /\
        trace s3 = (trace s2 ++ [EvInvoke 0 answer])%list /\
        (forall l, alive (heap s2) l -> heap s3 !! l = heap s2 !! l) /\
        (truthy err = true -> answer = [err] /\ heap s3 = heap s2) /\
        (truthy err = false ->
         exists db, answer = [VNull; db] /\ is_db_handle (heap s3) db conn).
Proof.
  apply (X10_connect_calls_back_once 5 0 example_state).
  vm_compute. eauto.
Defined.

(** X11.  [connect] called with no argument, or with two or more of which
    the first is not an object ([undefined], [null], a boolean, a number, a
    string), throws a [TypeError] before anything is made or sent: the
    state is untouched. *)
Theorem X11_connect_options_not_object_throws (args : list value)
    (s : state) :
  List.length args <> 1 ->
  not_an_object (arg 0 args) = true ->
  exists msg, connect args s = (Throw msg, s).
Proof.
  intros Hlen Ho. destruct args as [|o [|x rest]].
  - eexists. reflexivity.
  - exfalso. apply Hlen. reflexivity.
  - unfold arg in Ho. cbn [nth] in Ho.
    destruct o; try discriminate; eexists; reflexivity.
Qed.

Lemma X11_connect_options_not_object_throws_witness :
  exists msg, connect [VNull; VFun 0] example_state = (Throw msg, example_state).
Proof.
  apply (X11_connect_options_not_object_throws [VNull; VFun 0] example_state).
  - simpl. lia.
  - reflexivity.
Defined.

(** X12.  [connect] called with a single argument never looks at it,
    whatever it is: an options object given alone is neither read nor
    changed, no object of the caller is, and the driver is asked for the
    database named [undefined] on [localhost], port 27017, with a new
    options object. *)
Theorem X12_connect_single_argument_ignored (x : value) (s : state) :
  exists s1 lo server dbc r,
    connect [x] s = (Ret VUndefined, s1) /\
    trace s1 =
      (trace s
       ++ [EvNew "Server" [VStr "localhost"; VNum 27017; VRef lo] server
             (heap s1);
           EvNew "Db" [VUndefined; server; VRef lo] dbc (heap s1);
           EvCall dbc "open" [VOpenCb VUndefined] r (heap s1)])%list /\
    ~ alive (heap s) lo /\
    forall l, alive (heap s) l -> heap s1 !! l = heap s !! l.
Proof.
  destruct s as [h n t]. cbn [heap trace].
  set (lo := fresh (dom h)).
  set (h0 := <[lo := Object KPlain ∅]> h).
  assert (Hrd : forall k, read h0 lo k = Some VUndefined).
  { intros k. unfold h0. rewrite read_insert.
    destruct (decide _) as [_|Hd]; [reflexivity | congruence]. }
  change (connect [x] (State h n t))
    with (connect [VRef lo; VUndefined] (State h0 n t)).
  rewrite (connect_run lo VUndefined VUndefined VUndefined VUndefined)
    by apply Hrd.
  cbv zeta.
  eexists. exists lo, (VNative n), (VNative (S n)), (VNative (S (S n))).
  split; [reflexivity|]. cbn [heap trace].
  split; [reflexivity|].
  split; [apply fresh_not_alive|].
  intros l Hl.
  assert (Hne : l <> lo) by (apply alive_ne_fresh; exact Hl).
  rewrite !lookup_write_ne by exact Hne.
  unfold h0. apply lookup_insert_ne. congruence.
Qed.

(** ** [getCollection] and the handles *)

(** X13.  The index list of [getCollection] has to be an array, or [null],
    or left out.  Given [undefined], a boolean, a number, a non-empty
    string, or an object that is no array (a single index specification,
    say), [getCollection] still asks the driver for the collection; when the
    driver has resolved it, the continuation throws a [TypeError] in the
    driver's call: no index is ensured, no handle is made and the caller's
    callback is never called. *)
Theorem X13_index_list_must_be_array (ld : loc) (d : nat)
    (name v cb err coll : value) (s s2 : state) :
  read (heap s) ld "_db" = Some (VNative d) ->
  truthy err = false ->
  not_index_list (heap s2) v ->
  exists s1 k r msg,
    DB_getCollection (VRef ld) [name; v; cb] s = (Ret VUndefined, s1) /\
    trace s1 =
      (trace s ++ [EvCall (VNative d) "collection" [name; k] r (heap s)])%list /\
    call k [err; coll] s2 = (Throw msg, s2).
Proof.
  intros Hd He Hv. destruct s as [h n t]. cbn [heap trace] in *.
  destruct (collection_not_index_list name v cb err coll s2 He Hv)
    as [msg Hcall].
  eexists. exists (VCollectionCb name v cb), (VNative n), msg.
  split; [apply (getCollection_run ld d); exact Hd|].
  split; [reflexivity | exact Hcall].
Qed.

Lemma X13_index_list_must_be_array_witness :
  exists s1 k r msg,
    DB_getCollection (VRef 2) [VStr "author"; VStr "_id"; VFun 0]
      example_state = (Ret VUndefined, s1) /\
    trace s1 =
      (trace example_state
       ++ [EvCall (VNative 3) "collection" [VStr "author"; k] r
             (heap example_state)])%list /\
    call k [VNull; VNative 7] example_state = (Throw msg, example_state).
Proof.
  apply (X13_index_list_must_be_array 2 3 (VStr "author") (VStr "_id")
           (VFun 0) VNull (VNative 7) example_state example_state).
  - vm_compute. reflexivity.
  - reflexivity.
  - simpl. discriminate.
Defined.

(** X14.  The handle that [connect] delivers works on the connection the
    driver opened: [getCollection] on it sends [collection] to that
    connection, with the collection's name and a continuation, and [close]
    sends [close] to it, with the caller's first argument alone when there
    is exactly one and with the first two otherwise.  Neither changes an
    object nor calls a function of the caller. *)
Theorem X14_db_handle_delegates (lo : loc) (f g d : nat) (err name : value)
    (indexes : option value) (cargs : list value) (s s2 : state) :
  alive (heap s) lo ->
  truthy err = false ->
  exists s1 k dbc r,
    connect [VRef lo; VFun f] s = (Ret VUndefined, s1) /\
    last (trace s1) = Some (EvCall dbc "open" [k] r (heap s1)) /\
    exists s3 db,
      call k [err; VNative d] s2 = (Ret VUndefined, s3) /\
      trace s3 = (trace s2 ++ [EvInvoke f [VNull; db]])%list /\
      (exists s4 k' r',
         DB_getCollection db (getCollection_args name indexes (VFun g)) s3
           = (Ret VUndefined, s4) /\
         trace s4 =
           (trace s3
            ++ [EvCall (VNative d) "collection" [name; k'] r' (heap s3)])%list /\
         heap s4 = heap s3) /\
      (exists s5 r'',
         DB_close db cargs s3 = (Ret VUndefined, s5) /\
         trace s5 =
           (trace s3
            ++ [EvCall (VNative d) "close"
                  (if (List.length cargs =? 1)%nat then [arg 0 cargs]
                   else [arg 0 cargs; arg 1 cargs])
                  r'' (heap s3)])%list /\
         heap s5 = heap s3).
Proof.
  intros Hal He. destruct s as [h n t]. destruct s2 as [h2 n2 t2].
  cbn [heap] in Hal.
  destruct (alive_read h lo "host" Hal) as [vh Hh].
  destruct (alive_read h lo "port" Hal) as [vp Hp].
  destruct (alive_read h lo "name" Hal) as [vn Hn].
  eexists. exists (VOpenCb (VFun f)), (VNative (S n)), (VNative (S (S n))).
  split; [apply (connect_run lo (VFun f) vh vp vn); assumption|].
  split; [cbn [trace heap]; rewrite last_app; reflexivity|].
  destruct (open_success f err (VNative d) h2 n2 t2 He)
    as (db & h3 & Hcall & Hdb).
  destruct (db_handle_read _ _ _ Hdb) as (ld & -> & Hrd).
  eexists. exists (VRef ld).
  split; [exact Hcall|]. cbn [heap trace].
  split; [reflexivity|].
  split.
  - eexists. exists (VCollectionCb name (default VNull indexes) (VFun g)),
      (VNative n2).
    split; [apply (getCollection_run ld d); exact Hrd|].
    cbn [heap trace]. split; [destruct indexes; reflexivity | reflexivity].
  - eexists. exists (VNative n2).
    split; [apply (close_run ld d); exact Hrd|].
    cbn [heap trace]. split; reflexivity.
Qed.

Lemma X14_db_handle_delegates_witness :
  exists s1 k dbc r,
    connect [VRef 5; VFun 0] example_state = (Ret VUndefined, s1) /\
    last (trace s1) = Some (EvCall dbc "open" [k] r (heap s1)) /\
    exists s3 db,
      call k [VNull; VNative 3] example_state = (Ret VUndefined, s3) /\
      trace s3 = (trace example_state ++ [EvInvoke 0 [VNull; db]])%list /\
      (exists s4 k' r',
         DB_getCollection db
           (getCollection_args (VStr "author") None (VFun 1)) s3
           = (Ret VUndefined, s4) /\
         trace s4 =
           (trace s3
            ++ [EvCall (VNative 3) "collection" [VStr "author"; k'] r'
                  (heap s3)])%list /\
         heap s4 = heap s3) /\
      (exists s5 r'',
         DB_close db [VFun 2] s3 = (Ret VUndefined, s5) /\
         trace s5 =
           (trace s3
            ++ [EvCall (VNative 3) "close"
                  (if (List.length [VFun 2] =? 1)%nat then [arg 0 [VFun 2]]
                   else [arg 0 [VFun 2]; arg 1 [VFun 2]])
                  r'' (heap s3)])%list /\
         heap s5 = heap s3).
Proof.
  apply (X14_db_handle_delegates 5 0 1 3 VNull (VStr "author") None
           [VFun 2] example_state example_state).
  - vm_compute. eauto.
  - reflexivity.
Defined.

(** X15.  The handle that [getCollection] delivers works on the collection
    the driver resolved and carries the name it was asked for: every
    documented call of the six operations on it, in the state the
    continuation left, succeeds and sends its request to that
    collection. *)
Theorem X15_collection_handle_delegates (ld : loc) (d c f : nat)
    (name err : value) (indexes : option value) (es : list value)
    (s s2 : state) :
  read (heap s) ld "_db" = Some (VNative d) ->
  truthy err = false ->
  index_list (heap s2) indexes = Some es ->
  exists s1 k r,
    DB_getCollection (VRef ld) (getCollection_args name indexes (VFun f)) s
      = (Ret VUndefined, s1) /\
    trace s1 =
      (trace s ++ [EvCall (VNative d) "collection" [name; k] r (heap s)])%list /\
    exists s3 lh,
      call k [err; VNative c] s2 = (Ret VUndefined, s3) /\
      last (trace s3) = Some (EvInvoke f [VNull; VRef lh]) /\
      read (heap s3) lh "name" = Some name /\
      forall (m : method) (lt : loc) (args : list value),
        call_shape (heap s3) m lt args ->
        alive (heap s3) lt ->
        exists s4 fwd r' h rest,
          Collection_prototype m (VRef lh) args s3 = (Ret VUndefined, s4) /\
          trace s4 =
            (trace s3
             ++ EvCall (VNative c) (driver_method m) fwd r' h :: rest)%list.
Proof.
  intros Hd He Hes. destruct s as [h n t]. destruct s2 as [h2 n2 t2].
  cbn [heap] in *.
  destruct (collection_success f name err c indexes es h2 n2 t2 He Hes)
    as (evs & hd & h' & n' & Hcall & _ & Hh).
  destruct (collection_handle_read _ _ _ _ Hh) as (lh & -> & Hrc & Hrn).
  eexists. exists (VCollectionCb name (default VNull indexes) (VFun f)),
    (VNative n).
  split; [apply (getCollection_run ld d); exact Hd|].
  split; [destruct indexes; reflexivity|].
  eexists. exists lh.
  split; [exact Hcall|]. cbn [heap trace].
  split; [rewrite app_assoc, last_app; reflexivity|].
  split; [exact Hrn|].
  intros m lt args Hs Hlt.
  destruct (method_run m lt args lh c h' n'
              (t2 ++ evs ++ [EvInvoke f [VNull; VRef lh]])%list Hs Hlt Hrc)
    as (h0 & fwd & rest & n'' & Hrun & _).
  eexists. exists fwd, (VNative n'), (fix_heap lt h0), rest.
  split; [exact Hrun | reflexivity].
Qed.

Lemma X15_collection_handle_delegates_witness :
  exists s1 k r,
    DB_getCollection (VRef 2)
      (getCollection_args (VStr "author") (Some (VRef 3)) (VFun 0))
      example_state = (Ret VUndefined, s1) /\
    trace s1 =
      (trace example_state
       ++ [EvCall (VNative 3) "collection" [VStr "author"; k] r
             (heap example_state)])%list /\
    exists s3 lh,
      call k [VNull; VNative 7] example_state = (Ret VUndefined, s3) /\
      last (trace s3) = Some (EvInvoke 0 [VNull; VRef lh]) /\
      read (heap s3) lh "name" = Some (VStr "author") /\
      forall (m : method) (lt : loc) (args : list value),
        call_shape (heap s3) m lt args ->
        alive (heap s3) lt ->
        exists s4 fwd r' h rest,
          Collection_prototype m (VRef lh) args s3 = (Ret VUndefined, s4) /\
          trace s4 =
            (trace s3
             ++ EvCall (VNative 7) (driver_method m) fwd r' h :: rest)%list.
Proof.
  apply (X15_collection_handle_delegates 2 3 7 0 (VStr "author") VNull
           (Some (VRef 3)) [VStr "_id"] example_state example_state).
  - vm_compute. reflexivity.
  - reflexivity.
  - vm_compute. reflexivity.
Defined.

(** ** The test of [fixID] *)

(** X16.  The test of [fixID] does not depend on the case of the letters:
    two strings that differ by case at most are both accepted or both
    refused, so an [_id] is coerced in upper case, in lower case and in any
    mixture of the two alike. *)
Theorem X16_test_ignores_case (s s' : string) :
  same_up_to_case s s' -> test_hex24 s = test_hex24 s'.
Proof.
  intros H. unfold test_hex24.
  assert (Hm := match_hex_n_case 24 s s' H).
  destruct (match_hex_n 24 s) as [r|], (match_hex_n 24 s') as [r'|];
    try contradiction; [|reflexivity].
  destruct r as [|a r].
  - apply same_up_to_case_empty in Hm. subst r'. reflexivity.
  - destruct r' as [|a' r']; [|reflexivity].
    unfold same_up_to_case in Hm. simpl in Hm. inversion Hm.
Qed.

Lemma X16_test_ignores_case_witness :
  test_hex24 "0123456789abcdef01234567" = test_hex24 "0123456789ABCDEF01234567".
Proof.
  apply (X16_test_ignores_case "0123456789abcdef01234567"
           "0123456789ABCDEF01234567").
  unfold same_up_to_case. simpl. repeat constructor.
Defined.
